(** * School report portal: the report aggregation of [utils.py]

    A shallow embedding of the data-access layer of the portal (the
    functions of [utils.py]) and of the data that the [index] and
    [grade_reports_pdf] routes of [app.py] compute from it, with the
    properties of the learner report, the broadsheet pivot and the roster.

    Modelling conventions.
    - The sqlite store is a record of four tables, each a list of rows in
      store order.  A query is a list comprehension over the tables; a join
      enumerates the rows of the left table in store order and, for each,
      the matching rows of the right table; [ORDER BY] is a stable sort.
    - A nullable column is an [option]; Python's [None] is [None].
    - Numbers are exact rationals ([Q]): an integer mark is itself, and the
      float arithmetic of [AVG], [/] and [round] is idealised as exact.
    - Python exceptions are the [Raise] results of an error monad. *)

From Stdlib Require Import QArith Lqa.
From stdpp Require Import gmap strings list sorting.

Local Open Scope Z_scope.

(** ** Python values and exceptions *)

Inductive exn : Type :=
  | TypeError
  | ZeroDivisionError.

Inductive result (A : Type) : Type :=
  | Ok (a : A)
  | Raise (e : exn).
Arguments Ok {A} a.
Arguments Raise {A} e.

#[global] Instance result_ret : MRet result := λ A a, Ok a.
#[global] Instance result_bind : MBind result := λ A B f m,
  match m with
  | Ok a => f a
  | Raise e => Raise e
  end.

(** Truth value of an optional string argument: [None] and [""] are falsy. *)
Definition truthy (v : option string) : bool :=
  match v with
  | None => false
  | Some s => negb (String.eqb s "")
  end.

(** [x >= n] for a possibly-[None] left operand: comparing [None] with a
    number raises [TypeError]. *)
Definition py_ge (x : option Q) (n : Q) : result bool :=
  match x with
  | Some v => Ok (Qle_bool n v)
  | None => Raise TypeError
  end.

(** True division [a / b]. *)
Definition py_truediv (a b : Q) : result Q :=
  if Qeq_bool b 0 then Raise ZeroDivisionError else Ok (a / b)%Q.

(** Nearest integer, ties to the even one. *)
Definition round_half_even (q : Q) : Z :=
  let n := Qnum q in
  let d := Z.pos (Qden q) in
  let f := n `div` d in
  let r2 := 2 * (n `mod` d) in
  if r2 <? d then f
  else if d <? r2 then f + 1
  else if Z.even f then f else f + 1.

(** [round(x, 1)]. *)
Definition py_round1 (x : Q) : Q :=
  (round_half_even (x * 10) # 10)%Q.

(** ** The store *)

Record LearnerRow : Type := {
  l_id : Z;
  l_full_name : string;
  l_grade : string
}.

Record SubjectRow : Type := {
  s_id : Z;
  s_name : string
}.

Record GradeSubjectRow : Type := {
  gs_grade : string;
  gs_subject_id : Z
}.

Record ScoreRow : Type := {
  sc_learner_id : Z;
  sc_subject_id : Z;
  sc_term : string;
  sc_exam_type : string;
  sc_score : option Q
}.

Record DB : Type := {
  learners : list LearnerRow;
  subjects : list SubjectRow;
  grade_subjects : list GradeSubjectRow;
  scores : list ScoreRow
}.

(** ** SQL building blocks *)

Section order_by.
Context {A : Type} (key : A → string).

(** The order [ORDER BY key] sorts the rows into. *)
Definition key_le (x y : A) : Prop := String.le (key x) (key y).

(** Insert [x] in front of the first row whose key is not below its own. *)
Fixpoint insert_by (x : A) (l : list A) : list A :=
  match l with
  | [] => [x]
  | y :: l' =>
      if bool_decide (String.le (key x) (key y)) then x :: y :: l'
      else y :: insert_by x l'
  end.

(** [ORDER BY key]: rows with equal keys keep their relative order. *)
Fixpoint order_by (l : list A) : list A :=
  match l with
  | [] => []
  | x :: l' => insert_by x (order_by l')
  end.
End order_by.

(** [SELECT DISTINCT]: the first occurrence of each value. *)
Fixpoint distinct (l : list string) : list string :=
  match l with
  | [] => []
  | x :: l' => x :: filter (λ y, y ≠ x) (distinct l')
  end.

(** The values of a column that are not [NULL]. *)
Definition non_null (l : list (option Q)) : list Q := omap (λ x, x) l.

Definition Qsum (l : list Q) : Q := foldr Qplus 0%Q l.

(** [AVG(col)]: [NULL] when no value is left after dropping the [NULL]s. *)
Definition sql_avg (l : list (option Q)) : option Q :=
  match non_null l with
  | [] => None
  | xs => Some (Qsum xs / inject_Z (Z.of_nat (length xs)))%Q
  end.

Definition Qmax (a b : Q) : Q := if Qle_bool a b then b else a.

(** [MAX(col)]: [NULL] when no value is left after dropping the [NULL]s. *)
Definition sql_max (l : list (option Q)) : option Q :=
  match non_null l with
  | [] => None
  | x :: xs => Some (foldl Qmax x xs)
  end.

(** An optional equality filter, added to the [WHERE] clause only when the
    argument is truthy ([if term: ...]). *)
Definition opt_filter (arg : option string) (col : string) : bool :=
  if truthy arg then bool_decide (Some col = arg) else true.

(** ** [get_learner_by_id] *)

(** A row of the scores query. *)
Record ScoreResult : Type := {
  r_subject_id : Z;
  r_subject : string;
  r_exam_type : string;
  r_term : string;
  r_score : option Q
}.

Module Mark.
Record t : Type := {
  subject : string;
  exam_type : string;
  score : option Q;
  class_average : option Q;
  remarks : string;
  class_highest : option Q
}.
End Mark.

Module Report.
Record t : Type := {
  id : Z;
  full_name : string;
  grade : string;
  marks : list Mark.t;
  total_score_obtainable : Z;
  total_score_obtained : Q;
  average_percentage : Q;
  teacher_comments : option string;
  principal_comments : option string;
  teacher_date : option string;
  principal_date : option string
}.
End Report.

(** [SELECT id, full_name, grade FROM learners WHERE id = ?], [fetchone()]. *)
Definition learner_sql (db : DB) (learner_id : Z) : option LearnerRow :=
  head (filter (λ l, l_id l = learner_id) (learners db)).

(** [SELECT s.id, s.name FROM subjects s JOIN grade_subjects gs
     ON gs.subject_id = s.id WHERE gs.grade = ? ORDER BY s.name]. *)
Definition subjects_sql (db : DB) (grade_val : string) : list SubjectRow :=
  order_by s_name
    (s ← subjects db;
     gs ← grade_subjects db;
     if bool_decide (gs_subject_id gs = s_id s ∧ gs_grade gs = grade_val)
     then [s] else []).

(** [{s['id']: s['name'] for s in subjects}]: a later row overwrites. *)
Definition subject_map (rows : list SubjectRow) : gmap Z string :=
  foldl (λ m s, <[s_id s := s_name s]> m) ∅ rows.

(** [SELECT s.id AS subject_id, s.name AS subject, sc.exam_type, sc.term,
     sc.score FROM scores sc JOIN subjects s ON s.id = sc.subject_id
     WHERE sc.learner_id = ? [AND sc.term = ?] [AND sc.exam_type = ?]
     ORDER BY s.name]. *)
Definition scores_sql (db : DB) (learner_id : Z)
    (term exam_type : option string) : list ScoreResult :=
  order_by r_subject
    (sc ← scores db;
     s ← subjects db;
     if bool_decide (s_id s = sc_subject_id sc)
        && bool_decide (sc_learner_id sc = learner_id)
        && opt_filter term (sc_term sc)
        && opt_filter exam_type (sc_exam_type sc)
     then [{| r_subject_id := s_id s; r_subject := s_name s;
              r_exam_type := sc_exam_type sc; r_term := sc_term sc;
              r_score := sc_score sc |}]
     else []).

(** The rows the class statistics of a subject are taken over:
    [FROM scores WHERE subject_id = ? [AND term = ?] [AND exam_type = ?]]. *)
Definition class_rows (db : DB) (subj_id : Z)
    (term exam_type : option string) : list ScoreRow :=
  filter (λ sc, sc_subject_id sc = subj_id
                ∧ opt_filter term (sc_term sc)
                ∧ opt_filter exam_type (sc_exam_type sc))
         (scores db).

(** [SELECT AVG(score) as avg_score, MAX(score) as max_score ...]: always
    exactly one row. *)
Definition class_avg_sql (db : DB) (subj_id : Z)
    (term exam_type : option string) : option Q * option Q :=
  let col := sc_score <$> class_rows db subj_id term exam_type in
  (sql_avg col, sql_max col).

(** The [if score >= 80: ... elif ... else ...] chain. *)
Definition remarks_of (score : option Q) : result string :=
  b80 ← py_ge score 80%Q;
  if b80 : bool then mret "exceeding expectations"%string
  else
    b65 ← py_ge score 65%Q;
    if b65 : bool then mret "meeting expectations"%string
    else
      b50 ← py_ge score 50%Q;
      if b50 : bool then mret "approaching expectations"%string
      else mret "below expectations"%string.

(** The part of the loop body that builds the mark of a score row. *)
Definition mark_of (db : DB) (term exam_type : option string)
    (s : ScoreResult) : result Mark.t :=
  let avg_row := class_avg_sql db (r_subject_id s) term exam_type in
  let class_average := py_round1 <$> avg_row.1 in
  let class_highest := py_round1 <$> avg_row.2 in
  remarks ← remarks_of (r_score s);
  mret {| Mark.subject := r_subject s;
          Mark.exam_type := r_exam_type s;
          Mark.score := r_score s;
          Mark.class_average := class_average;
          Mark.remarks := remarks;
          Mark.class_highest := class_highest |}.

(** The loop state: [marks], [total_score_obtained],
    [total_score_obtainable]. *)
Definition loop_state : Type := list Mark.t * Q * Z.

(** [for s in scores: ...]. *)
Fixpoint marks_loop (db : DB) (term exam_type : option string)
    (rows : list ScoreResult) (st : loop_state) : result loop_state :=
  match rows with
  | [] => mret st
  | s :: rows' =>
      let '(marks, total_score_obtained, total_score_obtainable) := st in
      let total_score_obtained :=
        (total_score_obtained + default 0 (r_score s))%Q in
      let total_score_obtainable := total_score_obtainable + 100 in
      m ← mark_of db term exam_type s;
      marks_loop db term exam_type rows'
        (marks ++ [m], total_score_obtained, total_score_obtainable)
  end.

(** [total_score_obtained] after the loop: a missing score counts as 0. *)
Definition obtained_after (a : Q) (rows : list ScoreResult) : Q :=
  foldl (λ acc s, acc + default 0 (r_score s))%Q a rows.

(** [grade if grade else learner['grade']]. *)
Definition grade_val (grade : option string) (learner : LearnerRow) : string :=
  match grade with
  | Some g => if truthy grade then g else l_grade learner
  | None => l_grade learner
  end.

Definition get_learner_by_id (db : DB) (learner_id : Z)
    (term exam_type grade : option string) : result (option Report.t) :=
  match learner_sql db learner_id with
  | None => mret None
  | Some learner =>
      let subjects := subjects_sql db (grade_val grade learner) in
      let subject_map := subject_map subjects in
      let scores := scores_sql db learner_id term exam_type in
      '(marks, total_score_obtained, total_score_obtainable) ←
        marks_loop db term exam_type scores ([], 0%Q, 0);
      average_percentage ←
        (if bool_decide (total_score_obtainable ≠ 0) then
           q ← py_truediv total_score_obtained
                 (inject_Z total_score_obtainable);
           mret (py_round1 (q * 100))
         else mret 0%Q);
      mret (Some {| Report.id := l_id learner;
                    Report.full_name := l_full_name learner;
                    Report.grade := l_grade learner;
                    Report.marks := marks;
                    Report.total_score_obtainable := total_score_obtainable;
                    Report.total_score_obtained := total_score_obtained;
                    Report.average_percentage := average_percentage;
                    Report.teacher_comments := None;
                    Report.principal_comments := None;
                    Report.teacher_date := None;
                    Report.principal_date := None |})
  end.

(** The subject column of a returned report. *)
Definition mark_subjects (res : result (option Report.t)) : option (list string) :=
  match res with
  | Ok (Some r) => Some (Mark.subject <$> Report.marks r)
  | _ => None
  end.

(** The four remarks. *)
Definition bands : list string :=
  ["exceeding expectations"; "meeting expectations";
   "approaching expectations"; "below expectations"].

(** ** [get_broadsheet_data] *)

(** A row of the marks query. *)
Record MarkRow : Type := {
  m_learner_id : Z;
  m_subject : string;
  m_score : option Q
}.

Module Broadsheet.
Record learner : Type := {
  id : Z;
  full_name : string;
  marks : gmap string (option Q)
}.

Record t : Type := {
  subjects : list string;
  learners : list learner
}.
End Broadsheet.

(** [SELECT DISTINCT s.name FROM subjects s ORDER BY s.name]. *)
Definition subject_names_sql (db : DB) : list string :=
  order_by (λ n, n) (distinct (s_name <$> subjects db)).

(** [SELECT id, full_name FROM learners WHERE grade = ? ORDER BY full_name]. *)
Definition grade_learners_sql (db : DB) (grade : string) : list LearnerRow :=
  order_by l_full_name (filter (λ l, l_grade l = grade) (learners db)).

(** [SELECT sc.learner_id, s.name as subject, sc.score FROM scores sc
     JOIN subjects s ON s.id = sc.subject_id WHERE sc.learner_id IN (...)]:
    no [ORDER BY], the rows come in store order. *)
Definition marks_sql (db : DB) (learner_ids : list Z) : list MarkRow :=
  sc ← scores db;
  s ← subjects db;
  if bool_decide (s_id s = sc_subject_id sc)
     && bool_decide (sc_learner_id sc ∈ learner_ids)
  then [{| m_learner_id := sc_learner_id sc; m_subject := s_name s;
           m_score := sc_score sc |}]
  else [].

(** [marks_by_learner.setdefault(lid, {})[r["subject"]] = r["score"]]. *)
Definition pivot_step (marks_by_learner : gmap Z (gmap string (option Q)))
    (r : MarkRow) : gmap Z (gmap string (option Q)) :=
  let lid := m_learner_id r in
  <[lid := <[m_subject r := m_score r]> (default ∅ (marks_by_learner !! lid))]>
    marks_by_learner.

Definition pivot (rows : list MarkRow) : gmap Z (gmap string (option Q)) :=
  foldl pivot_step ∅ rows.

Definition get_broadsheet_data (db : DB) (grade : string) : Broadsheet.t :=
  let subjects := subject_names_sql db in
  let learners := grade_learners_sql db grade in
  match learners with
  | [] => {| Broadsheet.subjects := subjects; Broadsheet.learners := [] |}
  | _ =>
      (* the ids go through [str] and back through [int] unchanged *)
      let learner_ids := l_id <$> learners in
      let rows := marks_sql db learner_ids in
      let marks_by_learner := pivot rows in
      {| Broadsheet.subjects := subjects;
         Broadsheet.learners :=
           (λ l, {| Broadsheet.id := l_id l;
                    Broadsheet.full_name := l_full_name l;
                    Broadsheet.marks :=
                      default ∅ (marks_by_learner !! l_id l) |})
           <$> learners |}
  end.

(** ** The roster functions of [utils.py] *)

(** [SELECT id, full_name, grade FROM learners ORDER BY full_name]. *)
Definition get_all_learners (db : DB) : list LearnerRow :=
  order_by l_full_name (learners db).

Module Roster.
Record t : Type := {
  id : Z;
  full_name : string;
  grade : string;
  average_score : option Q
}.
End Roster.

(** [(SELECT AVG(score) FROM scores s WHERE s.learner_id = l.id)]. *)
Definition learner_average (db : DB) (learner_id : Z) : option Q :=
  sql_avg (sc_score <$> filter (λ sc, sc_learner_id sc = learner_id) (scores db)).

(** [SELECT l.id, l.full_name, l.grade, (...) AS average_score
     FROM learners l ORDER BY l.full_name]. *)
Definition get_all_learners_with_reports (db : DB) : list Roster.t :=
  (λ l, {| Roster.id := l_id l;
           Roster.full_name := l_full_name l;
           Roster.grade := l_grade l;
           Roster.average_score := learner_average db (l_id l) |})
  <$> order_by l_full_name (learners db).

(** [SELECT DISTINCT grade FROM learners ORDER BY grade]. *)
Definition get_all_grades (db : DB) : list string :=
  order_by (λ g, g) (distinct (l_grade <$> learners db)).

(** ** The data the routes of [app.py] compute *)

(** The [learners] list that [index] hands to its template: the roster,
    narrowed to [selected_grade] when that query argument is truthy. *)
Definition index (db : DB) (selected_grade : option string) : list LearnerRow :=
  if truthy selected_grade
  then filter (λ l, Some (l_grade l) = selected_grade) (get_all_learners db)
  else get_all_learners db.

(** [for x in xs: ... f(x) ...] collecting the values; the first exception
    ends the loop. *)
Fixpoint for_each {A B : Type} (f : A → result B) (xs : list A)
    : result (list B) :=
  match xs with
  | [] => mret []
  | x :: xs' =>
      y ← f x;
      ys ← for_each f xs';
      mret (y :: ys)
  end.

(** The [learner_full] values that [grade_reports_pdf] renders, one per
    learner of the grade, in roster order. *)
Definition grade_reports_pdf (db : DB) (grade : string)
    (selected_term selected_exam_type : option string)
    : result (list (option Report.t)) :=
  let learners :=
    filter (λ l, Roster.grade l = grade) (get_all_learners_with_reports db) in
  for_each
    (λ learner, get_learner_by_id db (Roster.id learner)
                  selected_term selected_exam_type (Some grade))
    learners.

(** ** A small store used for the worked examples *)

Definition demo_db : DB := {|
  learners := [
    {| l_id := 1; l_full_name := "Zawadi Otieno"; l_grade := "G1" |};
    {| l_id := 2; l_full_name := "Amina Njeri"; l_grade := "G1" |};
    {| l_id := 3; l_full_name := "Baraka Kiptoo"; l_grade := "G2" |};
    {| l_id := 4; l_full_name := "Chege Mwangi"; l_grade := "G2" |} ];
  subjects := [
    {| s_id := 10; s_name := "Math" |};
    {| s_id := 11; s_name := "English" |};
    {| s_id := 12; s_name := "Science" |} ];
  grade_subjects := [
    {| gs_grade := "G1"; gs_subject_id := 10 |};
    {| gs_grade := "G1"; gs_subject_id := 12 |};
    {| gs_grade := "G2"; gs_subject_id := 11 |} ];
  scores := [
    {| sc_learner_id := 1; sc_subject_id := 10; sc_term := "Term 1";
       sc_exam_type := "Opener"; sc_score := Some 80%Q |};
    {| sc_learner_id := 1; sc_subject_id := 11; sc_term := "Term 1";
       sc_exam_type := "Opener"; sc_score := Some 50%Q |};
    {| sc_learner_id := 2; sc_subject_id := 10; sc_term := "Term 1";
       sc_exam_type := "Opener"; sc_score := Some 65%Q |};
    {| sc_learner_id := 2; sc_subject_id := 10; sc_term := "Term 2";
       sc_exam_type := "Opener"; sc_score := Some 40%Q |};
    {| sc_learner_id := 3; sc_subject_id := 11; sc_term := "Term 1";
       sc_exam_type := "Opener"; sc_score := None |} ]
|}.

(** * Properties *)

(** Closes a goal whose hypotheses bound a score from below by a number and
    from above by a smaller one. *)
Ltac q_contra :=
  match goal with
  | H1 : (?a <= ?s)%Q, H2 : (?s < ?b)%Q |- _ =>
      pose proof (Qle_lt_trans _ _ _ H1 H2) as Hc;
      unfold Qlt in Hc; simpl in Hc; lia
  end.

(** ** The error monad *)

Lemma bind_Ok {A B} (f : A → result B) (m : result A) (b : B) :
  m ≫= f = Ok b ↔ ∃ a, m = Ok a ∧ f a = Ok b.
Proof.
  destruct m as [a|ex]; simpl; split.
  - eauto.
  - intros (a' & H & ?). injection H as <-. done.
  - done.
  - intros (? & ? & ?). done.
Qed.

Lemma bind_Raise {A B} (f : A → result B) (m : result A) (ex : exn) :
  m ≫= f = Raise ex ↔ m = Raise ex ∨ ∃ a, m = Ok a ∧ f a = Raise ex.
Proof.
  destruct m as [a|ex']; simpl; split.
  - eauto.
  - intros [H|(a' & H & ?)]; [discriminate|]. injection H as <-. done.
  - intros [= ->]. by left.
  - intros [[= ->]|(? & ? & ?)]; done.
Qed.

(** ** Remarks and the mark of a row *)

Lemma remarks_of_None : remarks_of None = Raise TypeError.
Proof. reflexivity. Qed.

Lemma remarks_of_Some (s : Q) : ∃ b, remarks_of (Some s) = Ok b.
Proof.
  unfold remarks_of; simpl.
  destruct (Qle_bool 80 s); [by eexists|].
  destruct (Qle_bool 65 s); [by eexists|].
  destruct (Qle_bool 50 s); by eexists.
Qed.

Lemma mark_of_None db t e s :
  r_score s = None → mark_of db t e s = Raise TypeError.
Proof. intros H. unfold mark_of. by rewrite H. Qed.

Lemma mark_of_is_Some db t e s :
  is_Some (r_score s) → ∃ m, mark_of db t e s = Ok m.
Proof.
  intros [v H]. unfold mark_of. rewrite H.
  destruct (remarks_of_Some v) as [b ->]. by eexists.
Qed.

Lemma mark_of_Raise db t e s ex :
  mark_of db t e s = Raise ex → ex = TypeError ∧ r_score s = None.
Proof.
  destruct (r_score s) as [v|] eqn:H.
  - destruct (mark_of_is_Some db t e s) as [m ->]; [by rewrite H|done].
  - rewrite mark_of_None; [|done]. by intros [= <-].
Qed.

Lemma mark_of_Ok db t e s m :
  mark_of db t e s = Ok m →
  Mark.subject m = r_subject s ∧
  Mark.exam_type m = r_exam_type s ∧
  Mark.score m = r_score s ∧
  is_Some (r_score s) ∧
  remarks_of (r_score s) = Ok (Mark.remarks m) ∧
  Mark.class_average m =
    py_round1 <$> (class_avg_sql db (r_subject_id s) t e).1 ∧
  Mark.class_highest m =
    py_round1 <$> (class_avg_sql db (r_subject_id s) t e).2.
Proof.
  unfold mark_of. intros H. apply bind_Ok in H as (b & Hb & H).
  injection H as <-. simpl. repeat split; try done.
  destruct (r_score s); [by eexists|done].
Qed.

(** ** The loop over the selected score rows *)

Section marks_loop.
Context (db : DB) (term exam_type : option string).

Lemma marks_loop_Ok rows ms a b ms' a' b' :
  marks_loop db term exam_type rows (ms, a, b) = Ok (ms', a', b') →
  ∃ new,
    ms' = ms ++ new ∧
    Forall2 (λ s m, mark_of db term exam_type s = Ok m) rows new ∧
    a' = obtained_after a rows ∧
    b' = b + 100 * Z.of_nat (length rows).
Proof.
  revert ms a b. induction rows as [|s rows IH]; intros ms a b; simpl.
  - intros [= <- <- <-]. exists []. rewrite app_nil_r.
    repeat split; [constructor|lia].
  - intros H. apply bind_Ok in H as (m & Hm & H).
    apply IH in H as (new & -> & Hall & -> & ->).
    exists (m :: new). rewrite <-app_assoc. simpl.
    repeat split; [by constructor|lia].
Qed.

Lemma marks_loop_Raise rows st ex :
  marks_loop db term exam_type rows st = Raise ex →
  ex = TypeError ∧ ∃ s, s ∈ rows ∧ r_score s = None.
Proof.
  revert st. induction rows as [|s rows IH]; intros [[ms a] b]; simpl.
  - done.
  - intros H. apply bind_Raise in H as [H|(m & Hm & H)].
    + apply mark_of_Raise in H as [-> H]. split; [done|].
      exists s. split; [left|done].
    + apply IH in H as (-> & s' & Hin & H). split; [done|].
      exists s'. split; [by right|done].
Qed.


Lemma marks_loop_total rows st :
  Forall (λ s, is_Some (r_score s)) rows →
  ∃ st', marks_loop db term exam_type rows st = Ok st'.
Proof.
  intros Hall.
  destruct (marks_loop db term exam_type rows st) as [st'|ex] eqn:H.
  - by eexists.
  - apply marks_loop_Raise in H as (_ & s & Hin & Hs).
    rewrite Forall_forall in Hall. apply Hall in Hin.
    rewrite Hs in Hin. by destruct Hin.
Qed.
End marks_loop.

(** ** Inversion of [get_learner_by_id] *)

Lemma py_truediv_nonzero (a : Q) (b : Z) :
  b ≠ 0 → py_truediv a (inject_Z b) = Ok (a / inject_Z b)%Q.
Proof.
  intros Hb. unfold py_truediv, Qeq_bool, inject_Z. simpl.
  rewrite Z.mul_1_r. destruct (Z.eqb_spec b (0 * 1)); [lia|done].
Qed.

Lemma learner_sql_None db lid :
  learner_sql db lid = None ↔ ∀ l, l ∈ learners db → l_id l ≠ lid.
Proof.
  unfold learner_sql. rewrite head_None. split.
  - intros H l Hin Hid.
    assert (l ∈ filter (λ l, l_id l = lid) (learners db)) as Hf
      by (by apply list_elem_of_filter).
    rewrite H in Hf. by apply not_elem_of_nil in Hf.
  - intros H. apply elem_of_nil_inv. intros l Hl.
    apply list_elem_of_filter in Hl as [Hid Hin]. by apply (H l).
Qed.

Lemma learner_sql_Some db lid learner :
  learner_sql db lid = Some learner →
  learner ∈ learners db ∧ l_id learner = lid.
Proof.
  unfold learner_sql. intros H.
  assert (learner ∈ filter (λ l, l_id l = lid) (learners db)) as Hf.
  { destruct (filter _ _) as [|x xs]; simplify_eq/=. left. }
  by apply list_elem_of_filter in Hf as [? ?].
Qed.

(** The [grade] argument only feeds [subjects] and [subject_map], which the
    rest of the function never reads. *)
Lemma get_learner_by_id_grade db lid t e g g' :
  get_learner_by_id db lid t e g = get_learner_by_id db lid t e g'.
Proof. reflexivity. Qed.

Lemma get_learner_by_id_Ok_None db lid t e g :
  get_learner_by_id db lid t e g = Ok None ↔ learner_sql db lid = None.
Proof.
  unfold get_learner_by_id. destruct (learner_sql db lid) as [learner|].
  - split; [|done]. intros H.
    apply bind_Ok in H as ([[ms a] b] & _ & H).
    apply bind_Ok in H as (avg & _ & H). done.
  - done.
Qed.

Lemma get_learner_by_id_Ok_Some db lid t e g r :
  get_learner_by_id db lid t e g = Ok (Some r) →
  ∃ learner,
    learner_sql db lid = Some learner ∧
    Report.id r = l_id learner ∧
    Report.full_name r = l_full_name learner ∧
    Report.grade r = l_grade learner ∧
    Forall2 (λ s m, mark_of db t e s = Ok m)
      (scores_sql db lid t e) (Report.marks r) ∧
    Report.total_score_obtained r =
      obtained_after 0%Q (scores_sql db lid t e) ∧
    Report.total_score_obtainable r =
      100 * Z.of_nat (length (scores_sql db lid t e)) ∧
    Report.average_percentage r =
      if bool_decide (Report.total_score_obtainable r ≠ 0)
      then py_round1 (Report.total_score_obtained r
                      / inject_Z (Report.total_score_obtainable r) * 100)%Q
      else 0%Q.
Proof.
  unfold get_learner_by_id. destruct (learner_sql db lid) as [learner|]; [|done].
  intros H. exists learner.
  apply bind_Ok in H as ([[ms a] b] & Hloop & H).
  apply marks_loop_Ok in Hloop as (new & -> & Hall & -> & ->).
  apply bind_Ok in H as (avg & Havg & H). injection H as <-. simpl.
  repeat split; try done.
  case_bool_decide as Hb.
  - rewrite py_truediv_nonzero in Havg by done.
    simpl in Havg. unfold mret, result_ret in Havg. congruence.
  - unfold mret, result_ret in Havg. congruence.
Qed.

Lemma get_learner_by_id_Raise db lid t e g ex :
  get_learner_by_id db lid t e g = Raise ex →
  ex = TypeError ∧
  is_Some (learner_sql db lid) ∧
  ∃ s, s ∈ scores_sql db lid t e ∧ r_score s = None.
Proof.
  unfold get_learner_by_id. destruct (learner_sql db lid) as [learner|]; [|done].
  intros H. apply bind_Raise in H as [H|([[ms a] b] & Hloop & H)].
  - apply marks_loop_Raise in H as [-> H]. by repeat split.
  - apply bind_Raise in H as [H|(avg & _ & H)]; [|done].
    case_bool_decide as Hb; [|done].
    rewrite py_truediv_nonzero in H by done. done.
Qed.


Lemma get_learner_by_id_found db lid t e g :
  is_Some (learner_sql db lid) →
  Forall (λ s, is_Some (r_score s)) (scores_sql db lid t e) →
  ∃ r, get_learner_by_id db lid t e g = Ok (Some r).
Proof.
  intros Hl Hall.
  destruct (get_learner_by_id db lid t e g) as [[r|]|ex] eqn:H.
  - by eexists.
  - apply get_learner_by_id_Ok_None in H. rewrite H in Hl. by destruct Hl.
  - apply get_learner_by_id_Raise in H as (_ & _ & s & Hin & Hs).
    rewrite Forall_forall in Hall. apply Hall in Hin.
    rewrite Hs in Hin. by destruct Hin.
Qed.

(** ** [ORDER BY] *)

Section order_by_facts.
Context {A : Type} (key : A → string).

#[local] Instance key_le_trans : Transitive (key_le key).
Proof. intros x y z. unfold key_le. apply transitivity. Qed.

Lemma insert_by_Permutation x l : insert_by key x l ≡ₚ x :: l.
Proof.
  induction l as [|y l IH]; simpl; [done|].
  case_bool_decide; [done|]. rewrite IH. apply Permutation_swap.
Qed.

Lemma order_by_Permutation l : order_by key l ≡ₚ l.
Proof.
  induction l as [|x l IH]; simpl; [done|].
  by rewrite insert_by_Permutation, IH.
Qed.

Lemma insert_by_HdRel z x l :
  (key_le key) z x → HdRel (key_le key) z l → HdRel (key_le key) z (insert_by key x l).
Proof.
  intros Hzx Hl. destruct l as [|y l]; simpl; [by constructor|].
  case_bool_decide; constructor; [done|].
  by apply HdRel_inv in Hl.
Qed.

Lemma insert_by_Sorted x l :
  Sorted (key_le key) l → Sorted (key_le key) (insert_by key x l).
Proof.
  induction 1 as [|y l Hl IH Hhd]; simpl.
  - by repeat constructor.
  - case_bool_decide as Hxy.
    + by repeat constructor.
    + constructor; [done|]. apply insert_by_HdRel; [|done].
      unfold key_le. by destruct (total String.le (key x) (key y)).
Qed.

Lemma order_by_Sorted l : Sorted (key_le key) (order_by key l).
Proof.
  induction l as [|x l IH]; simpl; [constructor|].
  by apply insert_by_Sorted.
Qed.

Lemma order_by_keys_sorted l :
  StronglySorted String.le (key <$> order_by key l).
Proof.
  apply (StronglySorted_fmap key (key_le key) String.le); [done|].
  apply Sorted_StronglySorted; [apply _|]. apply order_by_Sorted.
Qed.

(** The sorted key column only depends on the rows, not on their order. *)
Lemma order_by_keys_Permutation l l' :
  l ≡ₚ l' → key <$> order_by key l = key <$> order_by key l'.
Proof.
  intros Hp. apply (StronglySorted_unique String.le).
  - apply order_by_keys_sorted.
  - apply order_by_keys_sorted.
  - by rewrite !order_by_Permutation, Hp.
Qed.

Lemma order_by_length l : length (order_by key l) = length l.
Proof. apply Permutation_length, order_by_Permutation. Qed.

Lemma order_by_elem_of x l : x ∈ order_by key l ↔ x ∈ l.
Proof. by rewrite order_by_Permutation. Qed.

Lemma order_by_nil l : order_by key l = [] ↔ l = [].
Proof.
  split; [|by intros ->]. intros H.
  apply Permutation_nil_r. rewrite <-H. symmetry. apply order_by_Permutation.
Qed.
End order_by_facts.

(** ** The learner report *)

Lemma report_marks_rows db lid t e g r :
  get_learner_by_id db lid t e g = Ok (Some r) →
  Mark.subject <$> Report.marks r = r_subject <$> scores_sql db lid t e.
Proof.
  intros H. apply get_learner_by_id_Ok_Some in H as (_ & _ & _ & _ & _ & H & _).
  induction H as [|s m rows ms Hm _ IH]; [done|].
  apply mark_of_Ok in Hm as (Hm & _). csimpl. by rewrite Hm, IH.
Qed.

(** C1: the subjects of a learner's marks are those of the selected score
    rows, whatever the grade-subject membership of the effective grade is.
    Learner 1 of the example store is in grade G1, whose subjects are Math
    and Science; the learner's score rows are in Math and English.  The
    report lists English and Math, with the stored grade as with the explicit
    grade G2 (whose only subject is English). *)
Theorem marks_subjects_follow_score_rows :
  let learner := {| l_id := 1; l_full_name := "Zawadi Otieno"; l_grade := "G1" |} in
  learner_sql demo_db 1 = Some learner ∧
  s_name <$> subjects_sql demo_db (grade_val None learner) = ["Math"; "Science"] ∧
  mark_subjects (get_learner_by_id demo_db 1 None None None)
    = Some ["English"; "Math"] ∧
  s_name <$> subjects_sql demo_db (grade_val (Some "G2") learner) = ["English"] ∧
  mark_subjects (get_learner_by_id demo_db 1 None None (Some "G2"))
    = Some ["English"; "Math"].
Proof. vm_compute. repeat split. Qed.

(** C2: the remarks comparison is applied to a null score.  Learner 3 of the
    example store has one score row, with a null score: the loop guards the
    sum against it, then compares it with 80, which raises [TypeError]. *)
Theorem remarks_evaluated_on_null_score :
  r_score <$> scores_sql demo_db 3 None None = [None] ∧
  obtained_after 0%Q (scores_sql demo_db 3 None None) = (0 + 0)%Q ∧
  remarks_of None = Raise TypeError ∧
  get_learner_by_id demo_db 3 None None None = Raise TypeError.
Proof. vm_compute. repeat split. Qed.

(** C6: an existing learner for whom no report is returned.  Learner 3 is a
    row of the learners table, and the call neither returns a report nor the
    not-found result: it raises [TypeError]. *)
Theorem existing_learner_without_report :
  (∃ l, l ∈ learners demo_db ∧ l_id l = 3) ∧
  get_learner_by_id demo_db 3 None None None ≠ Ok None ∧
  (∀ r, get_learner_by_id demo_db 3 None None None ≠ Ok (Some r)) ∧
  get_learner_by_id demo_db 3 None None None = Raise TypeError.
Proof.
  assert (get_learner_by_id demo_db 3 None None None = Raise TypeError) as H
    by (vm_compute; reflexivity).
  rewrite H. repeat split; try done.
  exists {| l_id := 3; l_full_name := "Baraka Kiptoo"; l_grade := "G2" |}.
  split; [|done]. simpl. do 2 right. left.
Qed.



Lemma Qle_bool_false (a b : Q) : Qle_bool a b = false → (b < a)%Q.
Proof.
  intros H. apply Qnot_le_lt. intros Hle.
  apply Qle_bool_iff in Hle. congruence.
Qed.

(** C4: a score that is not null gets the remark of its band, the lower
    bound of a band belonging to it. *)
Theorem remarks_bands (s : Q) :
  (∃ b, remarks_of (Some s) = Ok b ∧ b ∈ bands) ∧
  ((80 <= s)%Q → remarks_of (Some s) = Ok "exceeding expectations") ∧
  ((65 <= s)%Q → (s < 80)%Q →
   remarks_of (Some s) = Ok "meeting expectations") ∧
  ((50 <= s)%Q → (s < 65)%Q →
   remarks_of (Some s) = Ok "approaching expectations") ∧
  ((s < 50)%Q → remarks_of (Some s) = Ok "below expectations").
Proof.
  unfold remarks_of, bands; simpl.
  destruct (Qle_bool 80 s) eqn:H80; simpl;
    [|destruct (Qle_bool 65 s) eqn:H65; simpl;
      [|destruct (Qle_bool 50 s) eqn:H50; simpl]];
  repeat match goal with
  | H : Qle_bool _ _ = true |- _ => apply Qle_bool_iff in H
  | H : Qle_bool _ _ = false |- _ => apply Qle_bool_false in H
  end;
  (split; [eexists; split; [reflexivity|set_solver]|]);
  repeat split; intros; try reflexivity; exfalso; q_contra.
Qed.

Lemma remarks_bands_witness :
  remarks_of (Some 80%Q) = Ok "exceeding expectations"%string ∧
  remarks_of (Some 65%Q) = Ok "meeting expectations"%string ∧
  remarks_of (Some 50%Q) = Ok "approaching expectations"%string ∧
  remarks_of (Some (499 # 10)%Q) = Ok "below expectations"%string.
Proof.
  split; [|split; [|split]].
  - apply (remarks_bands 80). unfold Qle; simpl; lia.
  - apply (remarks_bands 65); [unfold Qle|unfold Qlt]; simpl; lia.
  - apply (remarks_bands 50); [unfold Qle|unfold Qlt]; simpl; lia.
  - apply (remarks_bands (499 # 10)). unfold Qlt; simpl; lia.
Defined.

(** Every mark of a returned report carries a score that is not null and
    the remark of that score. *)
Lemma report_marks_remarks db lid t e g r m :
  get_learner_by_id db lid t e g = Ok (Some r) →
  m ∈ Report.marks r →
  is_Some (Mark.score m) ∧ remarks_of (Mark.score m) = Ok (Mark.remarks m).
Proof.
  intros H Hm.
  apply get_learner_by_id_Ok_Some in H as (_ & _ & _ & _ & _ & Hall & _).
  apply list_elem_of_lookup in Hm as [i Hi].
  destruct (Forall2_lookup_r _ _ _ _ _ Hall Hi) as (s & _ & Hs).
  apply mark_of_Ok in Hs as (_ & _ & -> & ? & ? & _). done.
Qed.

(** ** Class statistics *)

Lemma opt_filter_spec (arg : option string) (col : string) :
  opt_filter arg col ↔ (truthy arg → arg = Some col).
Proof.
  unfold opt_filter. destruct (truthy arg); simpl.
  - rewrite bool_decide_spec. split; [by intros <-|]. intros H. by rewrite H.
  - split; [by intros _ []|done].
Qed.

Lemma elem_of_class_rows db subj t e sc :
  sc ∈ class_rows db subj t e ↔
  sc ∈ scores db ∧ sc_subject_id sc = subj ∧
  (truthy t → t = Some (sc_term sc)) ∧
  (truthy e → e = Some (sc_exam_type sc)).
Proof.
  unfold class_rows. rewrite list_elem_of_filter, !opt_filter_spec. tauto.
Qed.

Lemma non_null_nil (col : list (option Q)) :
  non_null col = [] ↔ Forall (λ x, x = None) col.
Proof.
  unfold non_null. induction col as [|[x|] col IH]; csimpl.
  - split; [constructor|done].
  - split; [done|]. by inversion 1.
  - rewrite IH. split; [by constructor|by inversion 1].
Qed.

Lemma sql_avg_None (col : list (option Q)) :
  sql_avg col = None ↔ Forall (λ x, x = None) col.
Proof.
  rewrite <-non_null_nil. unfold sql_avg.
  destruct (non_null col); split; done.
Qed.




(** ** Ordering of the marks *)

Lemma bind_Permutation_ext {A B} (f g : A → list B) (l : list A) :
  (∀ x, f x ≡ₚ g x) → l ≫= f ≡ₚ l ≫= g.
Proof.
  intros Hfg. induction l as [|x l IH]; csimpl; [done|].
  by rewrite (Hfg x), IH.
Qed.

Lemma scores_sql_subjects_Permutation db db' lid t e :
  scores db' ≡ₚ scores db → subjects db' ≡ₚ subjects db →
  r_subject <$> scores_sql db' lid t e = r_subject <$> scores_sql db lid t e.
Proof.
  intros Hsc Hsub. unfold scores_sql.
  apply order_by_keys_Permutation.
  rewrite Hsc. apply bind_Permutation_ext. intros sc. by rewrite Hsub.
Qed.

(** C7: the marks of a report are in ascending order of subject name, and
    the sequence of subject names does not change when the rows of the
    scores and subjects tables are stored in another order. *)
Theorem marks_sorted_by_subject db lid t e g r :
  get_learner_by_id db lid t e g = Ok (Some r) →
  StronglySorted String.le (Mark.subject <$> Report.marks r) ∧
  ∀ db' r',
    scores db' ≡ₚ scores db → subjects db' ≡ₚ subjects db →
    get_learner_by_id db' lid t e g = Ok (Some r') →
    Mark.subject <$> Report.marks r' = Mark.subject <$> Report.marks r.
Proof.
  intros H. apply report_marks_rows in H as ->. split.
  - apply order_by_keys_sorted.
  - intros db' r' Hsc Hsub H'. apply report_marks_rows in H' as ->.
    by apply scores_sql_subjects_Permutation.
Qed.

Lemma marks_sorted_by_subject_witness :
  ∃ r, get_learner_by_id demo_db 1 None None None = Ok (Some r) ∧
       sc_subject_id <$> filter (λ sc, sc_learner_id sc = 1) (scores demo_db)
         = [10; 11] ∧
       StronglySorted String.le (Mark.subject <$> Report.marks r).
Proof.
  destruct (get_learner_by_id demo_db 1 None None None) as [[r|]|] eqn:H;
    try (vm_compute in H; discriminate).
  exists r. split; [done|]. split; [reflexivity|].
  apply (marks_sorted_by_subject demo_db 1 None None None r H).
Defined.

(** ** The broadsheet *)

Lemma elem_of_distinct (x : string) (l : list string) :
  x ∈ distinct l ↔ x ∈ l.
Proof.
  induction l as [|y l IH]; simpl; [done|].
  rewrite !elem_of_cons, list_elem_of_filter, IH.
  destruct (decide (x = y)); tauto.
Qed.

Lemma NoDup_distinct (l : list string) : NoDup (distinct l).
Proof.
  induction l as [|y l IH]; simpl; constructor.
  - rewrite list_elem_of_filter. by intros [? _].
  - by apply NoDup_filter.
Qed.

Lemma elem_of_subject_names_sql db n :
  n ∈ subject_names_sql db ↔ ∃ s, s ∈ subjects db ∧ s_name s = n.
Proof.
  unfold subject_names_sql.
  rewrite order_by_elem_of, elem_of_distinct, list_elem_of_fmap.
  split; intros (s & ? & ?); eauto.
Qed.

Lemma subject_names_sql_NoDup db : NoDup (subject_names_sql db).
Proof.
  unfold subject_names_sql. rewrite order_by_Permutation.
  apply NoDup_distinct.
Qed.

Lemma subject_names_sql_sorted db :
  StronglySorted String.le (subject_names_sql db).
Proof.
  unfold subject_names_sql.
  rewrite <-(list_fmap_id (order_by _ _)). apply order_by_keys_sorted.
Qed.

Lemma grade_learners_sql_nil db grade :
  grade_learners_sql db grade = [] ↔
  ∀ l, l ∈ learners db → l_grade l ≠ grade.
Proof.
  unfold grade_learners_sql. rewrite order_by_nil. split.
  - intros H l Hin Hg. by apply (filter_nil_not_elem_of _ _ l H).
  - intros H. apply elem_of_nil_inv. intros l Hl.
    apply list_elem_of_filter in Hl as [Hg Hin]. by apply (H l).
Qed.

(** C8: for a grade no learner is in, the broadsheet is the list of all
    subject names of the store, each once and in ascending order, with an
    empty list of learners. *)
Theorem broadsheet_without_learners db grade :
  (∀ l, l ∈ learners db → l_grade l ≠ grade) →
  get_broadsheet_data db grade =
    {| Broadsheet.subjects := subject_names_sql db;
       Broadsheet.learners := [] |} ∧
  (∀ n, n ∈ subject_names_sql db ↔ ∃ s, s ∈ subjects db ∧ s_name s = n) ∧
  NoDup (subject_names_sql db) ∧
  StronglySorted String.le (subject_names_sql db).
Proof.
  intros H. apply grade_learners_sql_nil in H.
  split; [|split; [|split]].
  - unfold get_broadsheet_data. by rewrite H.
  - apply elem_of_subject_names_sql.
  - apply subject_names_sql_NoDup.
  - apply subject_names_sql_sorted.
Qed.

Lemma broadsheet_without_learners_witness :
  get_broadsheet_data demo_db "G9" =
    {| Broadsheet.subjects := ["English"; "Math"; "Science"];
       Broadsheet.learners := [] |}.
Proof.
  apply (broadsheet_without_learners demo_db "G9").
  intros l Hl. simpl in Hl.
  repeat (apply elem_of_cons in Hl as [->|Hl]; [done|]).
  by apply not_elem_of_nil in Hl.
Defined.

(** The subject list of a broadsheet is the same for every grade. *)
Lemma broadsheet_subjects_global db grade :
  Broadsheet.subjects (get_broadsheet_data db grade) = subject_names_sql db.
Proof.
  unfold get_broadsheet_data. by destruct (grade_learners_sql db grade).
Qed.

(** *** The pivot *)

Lemma pivot_snoc rows r : pivot (rows ++ [r]) = pivot_step (pivot rows) r.
Proof. unfold pivot. apply foldl_snoc. Qed.

(** What the learner's dictionary holds under a subject name: the score of
    the last row of that learner and subject name, if there is one. *)
Lemma pivot_lookup (rows : list MarkRow) (lid : Z) (n : string) :
  default ∅ (pivot rows !! lid) !! n =
  last (m_score <$>
        filter (λ r, m_learner_id r = lid ∧ m_subject r = n) rows).
Proof.
  induction rows as [|r rows IH] using rev_ind; [done|].
  rewrite pivot_snoc, filter_app, fmap_app, last_app.
  unfold pivot_step. rewrite filter_cons, filter_nil.
  destruct (decide (m_learner_id r = lid)) as [<-|Hlid].
  - rewrite lookup_insert_eq. simpl.
    destruct (decide (m_subject r = n)) as [<-|Hn].
    + rewrite lookup_insert_eq. by rewrite decide_True.
    + rewrite lookup_insert_ne by done. rewrite decide_False by tauto. done.
  - rewrite lookup_insert_ne by done. rewrite decide_False by tauto. done.
Qed.

Lemma elem_of_marks_sql db ids r :
  r ∈ marks_sql db ids ↔
  ∃ sc s, sc ∈ scores db ∧ s ∈ subjects db ∧
          s_id s = sc_subject_id sc ∧ sc_learner_id sc ∈ ids ∧
          r = {| m_learner_id := sc_learner_id sc; m_subject := s_name s;
                 m_score := sc_score sc |}.
Proof.
  unfold marks_sql. rewrite list_elem_of_bind. split.
  - intros (sc & Hr & Hsc). apply list_elem_of_bind in Hr as (s & Hr & Hs).
    exists sc, s.
    destruct (bool_decide (s_id s = sc_subject_id sc)) eqn:H1;
      destruct (bool_decide (sc_learner_id sc ∈ ids)) eqn:H2; simpl in Hr;
      try by apply not_elem_of_nil in Hr.
    apply bool_decide_eq_true in H1, H2.
    apply list_elem_of_singleton in Hr. done.
  - intros (sc & s & Hsc & Hs & H1 & H2 & ->). exists sc. split; [|done].
    apply list_elem_of_bind. exists s. split; [|done].
    rewrite !bool_decide_eq_true_2 by done. simpl. left.
Qed.

Lemma elem_of_broadsheet_learners db grade l :
  l ∈ Broadsheet.learners (get_broadsheet_data db grade) →
  let ids := l_id <$> grade_learners_sql db grade in
  Broadsheet.id l ∈ ids ∧
  Broadsheet.marks l =
    default ∅ (pivot (marks_sql db ids) !! Broadsheet.id l).
Proof.
  unfold get_broadsheet_data.
  destruct (grade_learners_sql db grade) as [|row rows] eqn:Hrows.
  - simpl. intros H. by apply not_elem_of_nil in H.
  - cbn [Broadsheet.learners]. intros H.
    apply list_elem_of_fmap in H as (row' & -> & Hin).
    cbn [Broadsheet.id Broadsheet.marks].
    split; [|done]. by apply list_elem_of_fmap_2.
Qed.

(** C9: under a subject name, the dictionary of a broadsheet learner holds
    the score of the last row of the marks query for that learner and that
    subject name; the name is missing exactly when the learner has no score
    row in a subject of that name. *)
Theorem broadsheet_pivot db grade l n :
  l ∈ Broadsheet.learners (get_broadsheet_data db grade) →
  Broadsheet.marks l !! n =
    last (m_score <$>
          filter (λ r, m_learner_id r = Broadsheet.id l ∧ m_subject r = n)
            (marks_sql db (l_id <$> grade_learners_sql db grade))) ∧
  (Broadsheet.marks l !! n = None ↔
   ¬ ∃ sc s, sc ∈ scores db ∧ s ∈ subjects db ∧
             s_id s = sc_subject_id sc ∧
             sc_learner_id sc = Broadsheet.id l ∧ s_name s = n).
Proof.
  intros Hl. apply elem_of_broadsheet_learners in Hl as [Hid ->].
  rewrite pivot_lookup. split; [done|].
  rewrite last_None. split.
  - intros Hnil (sc & s & Hsc & Hs & Hjoin & Hlid & Hn).
    apply fmap_nil_inv in Hnil.
    eapply (filter_nil_not_elem_of _ _ _ Hnil); [|apply elem_of_marks_sql].
    2:{ exists sc, s. repeat split; try done. by rewrite Hlid. }
    done.
  - intros Hno.
    enough (filter (λ r, m_learner_id r = Broadsheet.id l ∧ m_subject r = n)
              (marks_sql db (l_id <$> grade_learners_sql db grade)) = [])
      as -> by done.
    apply elem_of_nil_inv. intros r Hr.
    apply list_elem_of_filter in Hr as [[Hlid Hn] Hr].
    apply elem_of_marks_sql in Hr as (sc & s & Hsc & Hs & Hjoin & _ & ->).
    apply Hno. by exists sc, s.
Qed.

Lemma broadsheet_pivot_witness :
  ∃ l, l ∈ Broadsheet.learners (get_broadsheet_data demo_db "G1") ∧
       Broadsheet.id l = 2 ∧
       Broadsheet.marks l !! "Math"%string = Some (Some 40%Q) ∧
       Broadsheet.marks l !! "English"%string = None.
Proof.
  set (l := {| Broadsheet.id := 2; Broadsheet.full_name := "Amina Njeri";
               Broadsheet.marks :=
                 default ∅ (pivot (marks_sql demo_db [2; 1]) !! 2) |}).
  assert (l ∈ Broadsheet.learners (get_broadsheet_data demo_db "G1")) as Hl.
  { change (get_broadsheet_data demo_db "G1") with
      {| Broadsheet.subjects := subject_names_sql demo_db;
         Broadsheet.learners :=
           [l; {| Broadsheet.id := 1; Broadsheet.full_name := "Zawadi Otieno";
                  Broadsheet.marks :=
                    default ∅ (pivot (marks_sql demo_db [2; 1]) !! 1) |}] |}.
    left. }
  exists l. split; [done|]. split; [done|]. split.
  - by rewrite (proj1 (broadsheet_pivot demo_db "G1" l "Math" Hl)).
  - by rewrite (proj1 (broadsheet_pivot demo_db "G1" l "English" Hl)).
Defined.

(** ** Empty-string arguments *)

Lemma opt_filter_falsy (arg : option string) (col : string) :
  truthy arg = false → opt_filter arg col = true.
Proof. intros H. unfold opt_filter. by rewrite H. Qed.

Lemma marks_loop_ext db t e t' e' rows st :
  (∀ s, mark_of db t e s = mark_of db t' e' s) →
  marks_loop db t e rows st = marks_loop db t' e' rows st.
Proof.
  intros Hext. revert st.
  induction rows as [|s rows IH]; intros [[ms a] b]; simpl; [done|].
  rewrite Hext. destruct (mark_of db t' e' s); simpl; [apply IH|done].
Qed.

(** C10: an argument that is the empty string behaves as a missing one: it
    adds no filter to the scores query or to the class statistics, it leaves
    the learner's stored grade as the effective grade, and the result of the
    call is the same. *)
Theorem empty_string_is_absent db lid subj learner (t e g : option string) :
  truthy (Some ""%string) = false ∧
  scores_sql db lid (Some ""%string) e = scores_sql db lid None e ∧
  scores_sql db lid t (Some ""%string) = scores_sql db lid t None ∧
  class_avg_sql db subj (Some ""%string) e = class_avg_sql db subj None e ∧
  class_avg_sql db subj t (Some ""%string) = class_avg_sql db subj t None ∧
  (∀ sc, sc ∈ class_rows db subj (Some ""%string) (Some ""%string) ↔
         sc ∈ scores db ∧ sc_subject_id sc = subj) ∧
  grade_val (Some ""%string) learner = l_grade learner ∧
  grade_val None learner = l_grade learner ∧
  subjects_sql db (grade_val (Some ""%string) learner) =
    subjects_sql db (grade_val None learner) ∧
  get_learner_by_id db lid (Some ""%string) e g =
    get_learner_by_id db lid None e g ∧
  get_learner_by_id db lid t (Some ""%string) g =
    get_learner_by_id db lid t None g ∧
  get_learner_by_id db lid t e (Some ""%string) =
    get_learner_by_id db lid t e None.
Proof.
  do 5 (split; [reflexivity|]). split; [|split; [|split; [|split; [|split; [|split]]]]].
  all: try reflexivity.
  intros sc. rewrite elem_of_class_rows. split.
  - by intros (? & ? & _).
  - intros [Hin Hsubj]. by repeat split.
  - unfold get_learner_by_id. destruct (learner_sql db lid); [|done].
    by rewrite (marks_loop_ext db (Some ""%string) e None e).
  - unfold get_learner_by_id. destruct (learner_sql db lid); [|done].
    by rewrite (marks_loop_ext db t (Some ""%string) t None).
Qed.

(** * Further properties *)

(** ** The rows a report is built from *)

Lemma elem_of_scores_sql db lid t e s :
  s ∈ scores_sql db lid t e ↔
  ∃ sc sub, sc ∈ scores db ∧ sub ∈ subjects db ∧
            s_id sub = sc_subject_id sc ∧ sc_learner_id sc = lid ∧
            (truthy t → t = Some (sc_term sc)) ∧
            (truthy e → e = Some (sc_exam_type sc)) ∧
            s = {| r_subject_id := s_id sub; r_subject := s_name sub;
                   r_exam_type := sc_exam_type sc; r_term := sc_term sc;
                   r_score := sc_score sc |}.
Proof.
  unfold scores_sql. rewrite order_by_elem_of, list_elem_of_bind. split.
  - intros (sc & Hs & Hsc). apply list_elem_of_bind in Hs as (sub & Hs & Hsub).
    exists sc, sub.
    destruct (bool_decide (s_id sub = sc_subject_id sc)) eqn:H1;
      destruct (bool_decide (sc_learner_id sc = lid)) eqn:H2;
      destruct (opt_filter t (sc_term sc)) eqn:H3;
      destruct (opt_filter e (sc_exam_type sc)) eqn:H4; simpl in Hs;
      try by apply not_elem_of_nil in Hs.
    apply bool_decide_eq_true in H1, H2.
    apply Is_true_true in H3, H4. rewrite opt_filter_spec in H3, H4.
    apply list_elem_of_singleton in Hs. done.
  - intros (sc & sub & Hsc & Hsub & H1 & H2 & H3 & H4 & ->).
    exists sc. split; [|done]. apply list_elem_of_bind.
    exists sub. split; [|done].
    rewrite <-opt_filter_spec in H3, H4. apply Is_true_true in H3, H4.
    rewrite !bool_decide_eq_true_2, H3, H4 by done. simpl. left.
Qed.


Lemma report_rows db lid t e g r m :
  get_learner_by_id db lid t e g = Ok (Some r) →
  m ∈ Report.marks r →
  ∃ s, s ∈ scores_sql db lid t e ∧ mark_of db t e s = Ok m.
Proof.
  intros H Hm.
  apply get_learner_by_id_Ok_Some in H as (_ & _ & _ & _ & _ & Hall & _).
  apply list_elem_of_lookup in Hm as [i Hi].
  destruct (Forall2_lookup_r _ _ _ _ _ Hall Hi) as (s & Hs & Hm).
  exists s. split; [|done]. apply list_elem_of_lookup. by exists i.
Qed.


(** ** Rounding *)

(** The rounded value is a nearest integer, the even one at a tie. *)
Lemma round_half_even_spec (q : Q) :
  let z := round_half_even q in
  let n := Qnum q in
  let d := Z.pos (Qden q) in
  2 * z * d - d ≤ 2 * n ∧ 2 * n ≤ 2 * z * d + d ∧
  (2 * n = 2 * z * d - d ∨ 2 * n = 2 * z * d + d → Z.even z = true).
Proof.
  unfold round_half_even. cbv zeta.
  set (n := Qnum q). set (d := Z.pos (Qden q)).
  assert (0 < d) as Hd by (unfold d; lia).
  pose proof (Z.div_mod n d ltac:(lia)) as Hdm.
  pose proof (Z.mod_pos_bound n d Hd) as Hm.
  set (f := n `div` d) in *. set (m := n `mod` d) in *.
  destruct (Z.ltb_spec (2 * m) d) as [H1|H1].
  - split; [nia|]. split; [nia|]. intros [H|H]; nia.
  - destruct (Z.ltb_spec d (2 * m)) as [H2|H2].
    + split; [nia|]. split; [nia|]. intros [H|H]; nia.
    + assert (2 * m = d) as He by lia.
      destruct (Z.even f) eqn:Hev.
      * split; [nia|]. split; [nia|]. done.
      * split; [nia|]. split; [nia|]. intros _.
        rewrite Z.even_add, Hev. done.
Qed.

Lemma round_half_even_mono (p q : Q) :
  (p <= q)%Q → round_half_even p ≤ round_half_even q.
Proof.
  intros Hle. unfold Qle in Hle.
  pose proof (round_half_even_spec p) as (Hp1 & Hp2 & Hp3).
  pose proof (round_half_even_spec q) as (Hq1 & Hq2 & Hq3).
  cbv zeta in *.
  set (zp := round_half_even p) in *. set (zq := round_half_even q) in *.
  set (np := Qnum p) in *. set (nq := Qnum q) in *.
  set (dp := Z.pos (Qden p)) in *. set (dq := Z.pos (Qden q)) in *.
  assert (0 < dp) by (unfold dp; lia). assert (0 < dq) by (unfold dq; lia).
  destruct (Z.le_gt_cases zp zq) as [|Hgt]; [done|exfalso].
  assert ((2 * zq + 1) * dp * dq ≤ 2 * np * dq) as A1 by nia.
  assert (2 * nq * dp ≤ (2 * zq + 1) * dq * dp) as A2 by nia.
  assert (zp = zq + 1) as Hz by nia.
  assert (2 * np = 2 * zp * dp - dp) as Tp by nia.
  assert (2 * nq = 2 * zq * dq + dq) as Tq by nia.
  specialize (Hp3 (or_introl Tp)). specialize (Hq3 (or_intror Tq)).
  rewrite Hz, Z.even_add, Hq3 in Hp3. done.
Qed.

Lemma py_round1_mono (p q : Q) : (p <= q)%Q → (py_round1 p <= py_round1 q)%Q.
Proof.
  intros Hle. unfold py_round1, Qle. simpl.
  assert (p * 10 <= q * 10)%Q as H10.
  { apply Qmult_le_compat_r; [done|]. unfold Qle; simpl; lia. }
  apply round_half_even_mono in H10. lia.
Qed.

Lemma round_half_even_Z (k : Z) : round_half_even (inject_Z k) = k.
Proof.
  unfold round_half_even, inject_Z. simpl.
  rewrite Z.div_1_r, Z.mod_1_r. done.
Qed.

Lemma py_round1_Z (k : Z) : (py_round1 (inject_Z k) == inject_Z k)%Q.
Proof.
  unfold py_round1.
  assert (inject_Z k * 10 == inject_Z (k * 10))%Q as H10
    by (unfold Qeq; simpl; lia).
  assert (round_half_even (inject_Z k * 10) = k * 10) as ->.
  { pose proof (round_half_even_Z (k * 10)) as Hk.
    apply Z.le_antisymm.
    - rewrite <-Hk at 1. apply round_half_even_mono.
      rewrite H10. apply Qle_refl.
    - rewrite <-Hk at 1. apply round_half_even_mono.
      rewrite H10. apply Qle_refl. }
  unfold Qeq; simpl; lia.
Qed.

(** ** Totals of a report *)

Lemma marks_scores db t e rows ms :
  Forall2 (λ s m, mark_of db t e s = Ok m) rows ms →
  ∃ xs, r_score <$> rows = Some <$> xs ∧ Mark.score <$> ms = Some <$> xs.
Proof.
  induction 1 as [|s m rows ms Hm _ (xs & Hr & Hs)]; [by exists []|].
  apply mark_of_Ok in Hm as (_ & _ & Hsc & [x Hx] & _).
  exists (x :: xs). rewrite !fmap_cons, Hsc, Hx. split; by f_equal.
Qed.

Lemma obtained_after_scores a rows xs :
  r_score <$> rows = Some <$> xs → obtained_after a rows = foldl Qplus a xs.
Proof.
  revert a xs. induction rows as [|s rows IH]; intros a [|x xs] H;
    try done.
  rewrite !fmap_cons in H. injection H as Hx Hrest.
  change (obtained_after a (s :: rows))
    with (obtained_after (a + default 0 (r_score s))%Q rows).
  rewrite Hx. simpl. by apply IH.
Qed.



(** X3: every mark of a returned report has the exam type that was asked
    for, when one was asked for. *)
Theorem marks_have_requested_exam_type db lid t e g r m :
  get_learner_by_id db lid t e g = Ok (Some r) →
  m ∈ Report.marks r →
  truthy e → e = Some (Mark.exam_type m).
Proof.
  intros H Hm He.
  destruct (report_rows _ _ _ _ _ _ _ H Hm) as (s & Hs & Hmark).
  apply mark_of_Ok in Hmark as (_ & -> & _).
  apply elem_of_scores_sql in Hs as (sc & sub & _ & _ & _ & _ & _ & Hex & ->).
  by apply Hex.
Qed.

Lemma marks_have_requested_exam_type_witness :
  ∃ r, get_learner_by_id demo_db 2 None (Some "Opener"%string) None
         = Ok (Some r) ∧
       length (Report.marks r) = 2%nat ∧
       Forall (λ m, Mark.exam_type m = "Opener"%string) (Report.marks r).
Proof.
  destruct (get_learner_by_id demo_db 2 None (Some "Opener"%string) None)
    as [[r|]|] eqn:H; try (vm_compute in H; discriminate).
  exists r. split; [done|]. split.
  - vm_compute in H. by injection H as <-.
  - apply Forall_forall. intros m Hm.
    assert (Some "Opener"%string = Some (Mark.exam_type m)) as Heq
      by (by apply (marks_have_requested_exam_type demo_db 2 None
                      (Some "Opener"%string) None r m H Hm)).
    by injection Heq.
Defined.

(** X4: a returned report carries the id that was asked for and the name and
    the stored grade of a learner row with that id, also when a [grade]
    argument is given; its comment and date fields are [None]. *)
Theorem report_identity db lid t e g r :
  get_learner_by_id db lid t e g = Ok (Some r) →
  Report.id r = lid ∧
  (∃ l, l ∈ learners db ∧ l_id l = lid ∧
        Report.full_name r = l_full_name l ∧ Report.grade r = l_grade l) ∧
  Report.teacher_comments r = None ∧ Report.principal_comments r = None ∧
  Report.teacher_date r = None ∧ Report.principal_date r = None.
Proof.
  intros H.
  pose proof (get_learner_by_id_Ok_Some _ _ _ _ _ _ H)
    as (l & Hl & Hid & Hname & Hgrade & _).
  apply learner_sql_Some in Hl as [Hin Hlid].
  split; [congruence|]. split; [by exists l|].
  unfold get_learner_by_id in H.
  destruct (learner_sql db lid); [|done].
  apply bind_Ok in H as ([[ms a] b] & _ & H).
  apply bind_Ok in H as (avg & _ & H). by injection H as <-.
Qed.

Lemma report_identity_witness :
  ∃ r, get_learner_by_id demo_db 1 None None (Some "G2"%string) = Ok (Some r) ∧
       Report.id r = 1 ∧ Report.grade r = "G1"%string.
Proof.
  destruct (get_learner_by_id demo_db 1 None None (Some "G2"%string))
    as [[r|]|] eqn:H; try (vm_compute in H; discriminate).
  exists r. split; [done|].
  destruct (report_identity demo_db 1 None None (Some "G2"%string) r H)
    as (Hid & _ & _).
  split; [done|]. vm_compute in H. by injection H as <-.
Defined.

(** ** Class statistics of a returned report *)

Lemma elem_of_non_null (col : list (option Q)) (x : Q) :
  x ∈ non_null col ↔ Some x ∈ col.
Proof.
  unfold non_null. rewrite list_elem_of_omap. split.
  - by intros (y & Hy & ->).
  - intros H. by exists (Some x).
Qed.

Lemma Qmax_ge_l (a b : Q) : (a <= Qmax a b)%Q.
Proof.
  unfold Qmax. destruct (Qle_bool a b) eqn:H; [|apply Qle_refl].
  by apply Qle_bool_iff.
Qed.

Lemma Qmax_ge_r (a b : Q) : (b <= Qmax a b)%Q.
Proof.
  unfold Qmax. destruct (Qle_bool a b) eqn:H; [apply Qle_refl|].
  apply Qlt_le_weak. by apply Qle_bool_false.
Qed.

Lemma foldl_Qmax_ge (a : Q) (xs : list Q) (x : Q) :
  x ∈ a :: xs → (x <= foldl Qmax a xs)%Q.
Proof.
  revert a x. induction xs as [|y xs IH]; intros a x Hx; simpl.
  - apply list_elem_of_singleton in Hx as ->. apply Qle_refl.
  - apply elem_of_cons in Hx as [->|Hx].
    + eapply Qle_trans; [apply (Qmax_ge_l a y)|]. apply IH. left.
    + apply elem_of_cons in Hx as [->|Hx].
      * eapply Qle_trans; [apply (Qmax_ge_r a y)|]. apply IH. left.
      * apply IH. by right.
Qed.

Lemma sql_max_ge (col : list (option Q)) (x : Q) :
  Some x ∈ col → ∃ mx, sql_max col = Some mx ∧ (x <= mx)%Q.
Proof.
  intros Hx. apply elem_of_non_null in Hx. unfold sql_max.
  destruct (non_null col) as [|a xs]; [by apply not_elem_of_nil in Hx|].
  eexists. split; [done|]. by apply foldl_Qmax_ge.
Qed.

Lemma sql_avg_is_Some (col : list (option Q)) (x : Q) :
  Some x ∈ col → is_Some (sql_avg col).
Proof.
  intros Hx. apply elem_of_non_null in Hx. unfold sql_avg.
  destruct (non_null col); [by apply not_elem_of_nil in Hx|by eexists].
Qed.

(** The score row a selected row comes from is one of the rows its class
    statistics are taken over. *)
Lemma own_row_qualifies db lid t e s :
  s ∈ scores_sql db lid t e →
  r_score s ∈ sc_score <$> class_rows db (r_subject_id s) t e.
Proof.
  intros Hs.
  apply elem_of_scores_sql in Hs as (sc & sub & Hsc & _ & Hj & _ & Ht & He & ->).
  simpl. apply list_elem_of_fmap. exists sc. split; [done|].
  apply elem_of_class_rows. by repeat split.
Qed.

(** X5: in a returned report no mark has a null class average or class
    highest, since the learner's own score is among the averaged rows; the
    class highest is the rounding of a value that is not below the learner's
    score, and so is not below the rounded score. *)
Theorem class_statistics_present db lid t e g r m :
  get_learner_by_id db lid t e g = Ok (Some r) →
  m ∈ Report.marks r →
  ∃ x avg mx,
    Mark.score m = Some x ∧
    Mark.class_average m = Some (py_round1 avg) ∧
    Mark.class_highest m = Some (py_round1 mx) ∧
    (x <= mx)%Q ∧ (py_round1 x <= py_round1 mx)%Q.
Proof.
  intros H Hm.
  destruct (report_rows _ _ _ _ _ _ _ H Hm) as (s & Hs & Hmark).
  apply own_row_qualifies in Hs.
  apply mark_of_Ok in Hmark as (_ & _ & Hsc & [x Hx] & _ & Havg & Hmax).
  rewrite Hx in Hs. unfold class_avg_sql in Havg, Hmax. simpl in Havg, Hmax.
  destruct (sql_max_ge _ _ Hs) as (mx & Hmx & Hle).
  destruct (sql_avg_is_Some _ _ Hs) as (avg & Ha).
  rewrite Ha in Havg. rewrite Hmx in Hmax.
  exists x, avg, mx. rewrite Hsc. repeat split; try done.
  by apply py_round1_mono.
Qed.

Lemma class_statistics_present_witness :
  ∃ r, get_learner_by_id demo_db 1 None None None = Ok (Some r) ∧
       Forall (λ m, is_Some (Mark.class_average m) ∧
                    is_Some (Mark.class_highest m)) (Report.marks r).
Proof.
  destruct (get_learner_by_id demo_db 1 None None None) as [[r|]|] eqn:H;
    try (vm_compute in H; discriminate).
  exists r. split; [done|]. apply Forall_forall. intros m Hm.
  destruct (class_statistics_present demo_db 1 None None None r m H Hm)
    as (x & avg & mx & _ & -> & -> & _).
  split; by eexists.
Defined.

(** ** Bounds *)

Lemma foldl_Qplus_bounds (a : Q) (xs : list Q) :
  Forall (λ x, (0 <= x)%Q ∧ (x <= 100)%Q) xs →
  (a <= foldl Qplus a xs)%Q ∧
  (foldl Qplus a xs <= a + inject_Z (100 * Z.of_nat (length xs)))%Q.
Proof.
  intros Hall. revert a.
  induction Hall as [|x xs [Hx0 Hx1] _ IH]; intros a; simpl.
  - change (inject_Z (100 * Z.of_nat 0)) with 0%Q. split; lra.
  - destruct (IH (a + x)%Q) as [IH1 IH2]. split; [lra|].
    eapply Qle_trans; [exact IH2|].
    replace (100 * Z.of_nat (S (length xs)))
      with (100 * Z.of_nat (length xs) + 100) by lia.
    rewrite inject_Z_plus. change (inject_Z 100) with 100%Q. lra.
Qed.

(** X6: when the scores of the store lie between 0 and 100, the total
    obtained of a returned report lies between 0 and the total obtainable,
    and its average percentage lies between 0 and 100. *)
Theorem average_percentage_bounds db lid t e g r :
  (∀ sc x, sc ∈ scores db → sc_score sc = Some x →
           (0 <= x)%Q ∧ (x <= 100)%Q) →
  get_learner_by_id db lid t e g = Ok (Some r) →
  (0 <= Report.total_score_obtained r)%Q ∧
  (Report.total_score_obtained r
     <= inject_Z (Report.total_score_obtainable r))%Q ∧
  (0 <= Report.average_percentage r)%Q ∧
  (Report.average_percentage r <= 100)%Q.
Proof.
  intros Hrange H.
  pose proof (get_learner_by_id_Ok_Some _ _ _ _ _ _ H)
    as (_ & _ & _ & _ & _ & Hall & Ha & Hb & Havg).
  destruct (marks_scores _ _ _ _ _ Hall) as (xs & Hrows & _).
  assert (Forall (λ x, (0 <= x)%Q ∧ (x <= 100)%Q) xs) as Hxs.
  { apply Forall_forall. intros x Hx.
    assert (Some x ∈ r_score <$> scores_sql db lid t e) as Hin
      by (rewrite Hrows; by apply list_elem_of_fmap_2).
    apply list_elem_of_fmap in Hin as (s & Hsx & Hs).
    apply elem_of_scores_sql in Hs as (sc & sub & Hsc & _ & _ & _ & _ & _ & ->).
    by apply (Hrange sc). }
  assert (length xs = length (scores_sql db lid t e)) as Hlen.
  { rewrite <-(length_fmap r_score), Hrows. by rewrite length_fmap. }
  rewrite (obtained_after_scores _ _ _ Hrows) in Ha.
  destruct (foldl_Qplus_bounds 0 xs Hxs) as [H0 H1].
  rewrite Hlen, <-Hb, <-Ha in H1. rewrite <-Ha in H0.
  assert (Report.total_score_obtained r
            <= inject_Z (Report.total_score_obtainable r))%Q as Hle by lra.
  split; [done|]. split; [done|].
  rewrite Havg. case_bool_decide as Hnz; [|split; lra].
  assert (0 < inject_Z (Report.total_score_obtainable r))%Q as Hpos.
  { rewrite Hb in *. unfold Qlt, inject_Z. simpl. lia. }
  set (v := (Report.total_score_obtained r
             / inject_Z (Report.total_score_obtainable r) * 100)%Q).
  assert (0 <= v)%Q as Hv0.
  { unfold v. apply Qmult_le_0_compat; [|lra].
    apply Qle_shift_div_l; [done|lra]. }
  assert (v <= 100)%Q as Hv1.
  { unfold v.
    assert (Report.total_score_obtained r
            / inject_Z (Report.total_score_obtainable r) <= 1)%Q
      by (apply Qle_shift_div_r; [done|lra]).
    lra. }
  split.
  - eapply Qle_trans; [|apply py_round1_mono, Hv0]. by vm_compute.
  - eapply Qle_trans; [apply py_round1_mono, Hv1|]. by vm_compute.
Qed.

Lemma average_percentage_bounds_witness :
  ∃ r, get_learner_by_id demo_db 1 None None None = Ok (Some r) ∧
       (0 <= Report.average_percentage r)%Q ∧
       (Report.average_percentage r <= 100)%Q.
Proof.
  destruct (get_learner_by_id demo_db 1 None None None) as [[r|]|] eqn:H;
    try (vm_compute in H; discriminate).
  exists r. split; [done|].
  apply (average_percentage_bounds demo_db 1 None None None r); [|done].
  intros sc x Hsc Hx. simpl in Hsc.
  repeat (apply elem_of_cons in Hsc as [->|Hsc];
          [simpl in Hx; simplify_eq; split; by vm_compute|]).
  by apply not_elem_of_nil in Hsc.
Defined.

(** ** Filtering sorted rows *)

Section filter_order_by.
Context {A : Type} (key : A → string).
Context (P : A → Prop) `{!∀ x, Decision (P x)}.

Lemma insert_by_head x l :
  Forall (key_le key x) l → insert_by key x l = x :: l.
Proof.
  destruct 1 as [|y l Hy _]; simpl; [done|].
  by rewrite bool_decide_eq_true_2.
Qed.

Lemma filter_insert_by x l :
  StronglySorted (key_le key) l →
  filter P (insert_by key x l) =
  if decide (P x) then insert_by key x (filter P l) else filter P l.
Proof.
  induction 1 as [|y l Hl IH Hy]; simpl.
  - rewrite filter_cons, filter_nil. by destruct (decide (P x)).
  - case_bool_decide as Hxy.
    + rewrite filter_cons. destruct (decide (P x)); [|done].
      symmetry. apply insert_by_head.
      apply Forall_forall. intros z Hz.
      apply list_elem_of_filter in Hz as [_ Hz].
      apply elem_of_cons in Hz as [->|Hz]; [done|].
      rewrite Forall_forall in Hy. unfold key_le in *.
      etrans; [exact Hxy|]. by apply Hy.
    + rewrite !(filter_cons _ y), IH.
      destruct (decide (P y)), (decide (P x)); simpl; try done.
      by rewrite bool_decide_eq_false_2.
Qed.

(** Narrowing the sorted rows gives the sorted narrowed rows. *)
Lemma filter_order_by l :
  filter P (order_by key l) = order_by key (filter P l).
Proof.
  induction l as [|x l IH]; simpl; [done|].
  rewrite filter_insert_by, filter_cons, IH.
  - by destruct (decide (P x)).
  - pose proof (key_le_trans key) as Htrans.
    apply Sorted_StronglySorted; [done|]. apply order_by_Sorted.
Qed.
End filter_order_by.

(** ** More on the broadsheet *)

Lemma broadsheet_learner_rows db grade :
  (λ l, (Broadsheet.id l, Broadsheet.full_name l))
    <$> Broadsheet.learners (get_broadsheet_data db grade) =
  (λ l, (l_id l, l_full_name l)) <$> grade_learners_sql db grade.
Proof.
  unfold get_broadsheet_data.
  destruct (grade_learners_sql db grade) as [|row rows]; [done|].
  cbn [Broadsheet.learners]. rewrite <-list_fmap_compose. done.
Qed.

(** X9: the learners of a broadsheet are the learner rows of the grade, each
    once, in ascending order of full name. *)
Theorem broadsheet_learners db grade :
  let ls := Broadsheet.learners (get_broadsheet_data db grade) in
  StronglySorted String.le (Broadsheet.full_name <$> ls) ∧
  (λ l, (Broadsheet.id l, Broadsheet.full_name l)) <$> ls ≡ₚ
  (λ l, (l_id l, l_full_name l))
    <$> filter (λ l, l_grade l = grade) (learners db).
Proof.
  simpl. split.
  - replace (Broadsheet.full_name
               <$> Broadsheet.learners (get_broadsheet_data db grade))
      with (snd <$> ((λ l, (Broadsheet.id l, Broadsheet.full_name l))
               <$> Broadsheet.learners (get_broadsheet_data db grade)))
      by (by rewrite <-list_fmap_compose).
    rewrite broadsheet_learner_rows, <-list_fmap_compose.
    apply (order_by_keys_sorted l_full_name).
  - rewrite broadsheet_learner_rows. unfold grade_learners_sql.
    by rewrite order_by_Permutation.
Qed.

(** X10: the subject list of a broadsheet does not depend on the grade: it
    holds the name of every subject of the store, each once, in ascending
    order. *)
Theorem broadsheet_subjects db grade :
  let subs := Broadsheet.subjects (get_broadsheet_data db grade) in
  (∀ grade', Broadsheet.subjects (get_broadsheet_data db grade') = subs) ∧
  (∀ n, n ∈ subs ↔ ∃ s, s ∈ subjects db ∧ s_name s = n) ∧
  NoDup subs ∧ StronglySorted String.le subs.
Proof.
  simpl. rewrite broadsheet_subjects_global. split; [|split; [|split]].
  - intros grade'. apply broadsheet_subjects_global.
  - apply elem_of_subject_names_sql.
  - apply subject_names_sql_NoDup.
  - apply subject_names_sql_sorted.
Qed.

(** X11: every subject name under which a broadsheet learner has a mark is a
    column of the broadsheet. *)
Theorem broadsheet_marks_have_columns db grade l n :
  l ∈ Broadsheet.learners (get_broadsheet_data db grade) →
  is_Some (Broadsheet.marks l !! n) →
  n ∈ Broadsheet.subjects (get_broadsheet_data db grade).
Proof.
  intros Hl [v Hv]. apply elem_of_broadsheet_learners in Hl as [_ Hmarks].
  rewrite Hmarks, pivot_lookup in Hv.
  rewrite broadsheet_subjects_global. apply elem_of_subject_names_sql.
  destruct (filter _ _) as [|row rows] eqn:Hf; [done|].
  assert (row ∈ filter (λ r, m_learner_id r = Broadsheet.id l ∧ m_subject r = n)
            (marks_sql db (l_id <$> grade_learners_sql db grade))) as Hrow
    by (rewrite Hf; left).
  apply list_elem_of_filter in Hrow as [[_ Hn] Hrow].
  apply elem_of_marks_sql in Hrow as (sc & sub & _ & Hsub & _ & _ & ->).
  by exists sub.
Qed.

Lemma broadsheet_marks_have_columns_witness :
  ∃ l, l ∈ Broadsheet.learners (get_broadsheet_data demo_db "G1") ∧
       is_Some (Broadsheet.marks l !! "Math"%string) ∧
       "Math"%string ∈ Broadsheet.subjects (get_broadsheet_data demo_db "G1").
Proof.
  set (l := {| Broadsheet.id := 2; Broadsheet.full_name := "Amina Njeri";
               Broadsheet.marks :=
                 default ∅ (pivot (marks_sql demo_db [2; 1]) !! 2) |}).
  assert (l ∈ Broadsheet.learners (get_broadsheet_data demo_db "G1")) as Hl.
  { change (get_broadsheet_data demo_db "G1") with
      {| Broadsheet.subjects := subject_names_sql demo_db;
         Broadsheet.learners :=
           [l; {| Broadsheet.id := 1; Broadsheet.full_name := "Zawadi Otieno";
                  Broadsheet.marks :=
                    default ∅ (pivot (marks_sql demo_db [2; 1]) !! 1) |}] |}.
    left. }
  assert (is_Some (Broadsheet.marks l !! "Math"%string)) as Hm.
  { unfold l. cbn [Broadsheet.marks]. rewrite pivot_lookup. by eexists. }
  exists l. split; [done|]. split; [done|].
  by apply (broadsheet_marks_have_columns demo_db "G1" l "Math").
Defined.

(** X12: a broadsheet learner without any score row has an empty dictionary
    of marks. *)
Theorem broadsheet_marks_empty db grade l :
  l ∈ Broadsheet.learners (get_broadsheet_data db grade) →
  (∀ sc, sc ∈ scores db → sc_learner_id sc ≠ Broadsheet.id l) →
  Broadsheet.marks l = ∅.
Proof.
  intros Hl Hno. apply elem_of_broadsheet_learners in Hl as [_ ->].
  apply map_eq. intros n. rewrite pivot_lookup, lookup_empty.
  enough (filter (λ r, m_learner_id r = Broadsheet.id l ∧ m_subject r = n)
            (marks_sql db (l_id <$> grade_learners_sql db grade)) = [])
    as -> by done.
  apply elem_of_nil_inv. intros r Hr.
  apply list_elem_of_filter in Hr as [[Hid _] Hr].
  apply elem_of_marks_sql in Hr as (sc & sub & Hsc & _ & _ & _ & ->).
  by apply (Hno sc).
Qed.

Lemma broadsheet_marks_empty_witness :
  ∃ l, l ∈ Broadsheet.learners (get_broadsheet_data demo_db "G2") ∧
       Broadsheet.id l = 4 ∧ Broadsheet.marks l = ∅.
Proof.
  set (l := {| Broadsheet.id := 4; Broadsheet.full_name := "Chege Mwangi";
               Broadsheet.marks :=
                 default ∅ (pivot (marks_sql demo_db [3; 4]) !! 4) |}).
  assert (l ∈ Broadsheet.learners (get_broadsheet_data demo_db "G2")) as Hl.
  { change (get_broadsheet_data demo_db "G2") with
      {| Broadsheet.subjects := subject_names_sql demo_db;
         Broadsheet.learners :=
           [{| Broadsheet.id := 3; Broadsheet.full_name := "Baraka Kiptoo";
               Broadsheet.marks :=
                 default ∅ (pivot (marks_sql demo_db [3; 4]) !! 3) |}; l] |}.
    right. left. }
  exists l. split; [done|]. split; [done|].
  apply (broadsheet_marks_empty demo_db "G2" l Hl).
  intros sc Hsc. simpl in Hsc.
  repeat (apply elem_of_cons in Hsc as [->|Hsc]; [done|]).
  by apply not_elem_of_nil in Hsc.
Defined.

(** ** The roster and the list of grades *)

(** X13: the roster holds every learner row once, in ascending order of full
    name. *)
Theorem get_all_learners_sorted db :
  get_all_learners db ≡ₚ learners db ∧
  StronglySorted String.le (l_full_name <$> get_all_learners db).
Proof.
  unfold get_all_learners. split.
  - apply order_by_Permutation.
  - apply order_by_keys_sorted.
Qed.

Lemma elem_of_get_all_grades db g :
  g ∈ get_all_grades db ↔ ∃ l, l ∈ learners db ∧ l_grade l = g.
Proof.
  unfold get_all_grades.
  rewrite order_by_elem_of, elem_of_distinct, list_elem_of_fmap.
  split; intros (l & ? & ?); eauto.
Qed.

Lemma grade_learners_sql_not_nil db g :
  grade_learners_sql db g ≠ [] ↔ ∃ l, l ∈ learners db ∧ l_grade l = g.
Proof.
  split.
  - intros Hne. destruct (grade_learners_sql db g) as [|l ls] eqn:Hq; [done|].
    assert (l ∈ grade_learners_sql db g) as Hl by (rewrite Hq; left).
    unfold grade_learners_sql in Hl.
    apply order_by_elem_of, list_elem_of_filter in Hl as [? ?]. by exists l.
  - intros (l & Hl & Hg) Hnil.
    rewrite grade_learners_sql_nil in Hnil. by apply (Hnil l).
Qed.

Lemma broadsheet_learners_nil db g :
  Broadsheet.learners (get_broadsheet_data db g) = [] ↔
  grade_learners_sql db g = [].
Proof.
  unfold get_broadsheet_data.
  destruct (grade_learners_sql db g) as [|l ls]; [done|].
  cbn [Broadsheet.learners]. split; [|done].
  rewrite fmap_cons. done.
Qed.

(** X14: the list of grades holds each grade once, in ascending order, and a
    grade is in the list exactly when the broadsheet of that grade has a
    learner. *)
Theorem get_all_grades_broadsheet db :
  NoDup (get_all_grades db) ∧
  StronglySorted String.le (get_all_grades db) ∧
  ∀ g, g ∈ get_all_grades db ↔
       Broadsheet.learners (get_broadsheet_data db g) ≠ [].
Proof.
  split; [|split].
  - unfold get_all_grades. rewrite order_by_Permutation. apply NoDup_distinct.
  - unfold get_all_grades.
    rewrite <-(list_fmap_id (order_by _ _)). apply order_by_keys_sorted.
  - intros g.
    rewrite elem_of_get_all_grades, broadsheet_learners_nil.
    symmetry. apply grade_learners_sql_not_nil.
Qed.

Lemma truthy_Some (g : string) : truthy (Some g) = true ↔ g ≠ ""%string.
Proof.
  simpl. rewrite negb_true_iff. split.
  - intros H ->. done.
  - intros H. apply String.eqb_neq. done.
Qed.

(** X15: without a grade (absent or empty) the index page lists the whole
    roster; with a grade it lists the learner rows of that grade, each once,
    in ascending order of full name: the learners of the broadsheet of that
    grade, with the same column of names. *)
Theorem index_learners db :
  index db None = get_all_learners db ∧
  index db (Some ""%string) = get_all_learners db ∧
  ∀ g, g ≠ ""%string →
    index db (Some g) ≡ₚ filter (λ l, l_grade l = g) (learners db) ∧
    StronglySorted String.le (l_full_name <$> index db (Some g)) ∧
    l_full_name <$> index db (Some g) =
      Broadsheet.full_name
        <$> Broadsheet.learners (get_broadsheet_data db g) ∧
    (λ l, (l_id l, l_full_name l)) <$> index db (Some g) ≡ₚ
    (λ l, (Broadsheet.id l, Broadsheet.full_name l))
      <$> Broadsheet.learners (get_broadsheet_data db g).
Proof.
  split; [done|]. split; [done|]. intros g Hg.
  assert (index db (Some g) = grade_learners_sql db g) as Hidx.
  { unfold index. apply truthy_Some in Hg as ->.
    unfold get_all_learners, grade_learners_sql.
    rewrite filter_order_by. f_equal. apply list_filter_iff.
    intros l. split; [by intros [= ->]|by intros ->]. }
  rewrite Hidx. split; [|split; [|split]].
  - apply order_by_Permutation.
  - apply order_by_keys_sorted.
  - replace (Broadsheet.full_name
               <$> Broadsheet.learners (get_broadsheet_data db g))
      with (snd <$> ((λ l, (Broadsheet.id l, Broadsheet.full_name l))
               <$> Broadsheet.learners (get_broadsheet_data db g)))
      by (by rewrite <-list_fmap_compose).
    by rewrite broadsheet_learner_rows, <-list_fmap_compose.
  - by rewrite broadsheet_learner_rows.
Qed.

Lemma index_learners_witness :
  l_full_name <$> index demo_db (Some "G1"%string) =
    ["Amina Njeri"; "Zawadi Otieno"] ∧
  l_full_name <$> index demo_db (Some "G1"%string) =
    Broadsheet.full_name
      <$> Broadsheet.learners (get_broadsheet_data demo_db "G1").
Proof.
  destruct (index_learners demo_db) as (_ & _ & H).
  destruct (H "G1"%string ltac:(done)) as (_ & _ & H2 & _).
  split; [|exact H2]. reflexivity.
Defined.

(** ** The roster with averages *)

Lemma elem_of_get_all_learners_with_reports db r :
  r ∈ get_all_learners_with_reports db ↔
  ∃ l, l ∈ learners db ∧
       r = {| Roster.id := l_id l; Roster.full_name := l_full_name l;
              Roster.grade := l_grade l;
              Roster.average_score := learner_average db (l_id l) |}.
Proof.
  unfold get_all_learners_with_reports. rewrite list_elem_of_fmap.
  split; intros (l & H1 & H2); exists l.
  - by apply order_by_elem_of in H2.
  - by rewrite order_by_elem_of.
Qed.

Lemma learner_average_None db lid :
  learner_average db lid = None ↔
  ∀ sc, sc ∈ scores db → sc_learner_id sc = lid → sc_score sc = None.
Proof.
  unfold learner_average. rewrite sql_avg_None, Forall_fmap, Forall_forall.
  split.
  - intros H sc Hsc Hid. apply (H sc). by apply list_elem_of_filter.
  - intros H sc Hsc. apply list_elem_of_filter in Hsc as [? ?]. by apply H.
Qed.

(** X16: the roster with averages lists every learner row once, in ascending
    order of full name, and the average of an entry is null exactly when no
    score row of that learner has a score. *)
Theorem roster_averages db :
  (λ r, (Roster.id r, Roster.full_name r, Roster.grade r))
    <$> get_all_learners_with_reports db ≡ₚ
  (λ l, (l_id l, l_full_name l, l_grade l)) <$> learners db ∧
  StronglySorted String.le
    (Roster.full_name <$> get_all_learners_with_reports db) ∧
  ∀ r, r ∈ get_all_learners_with_reports db →
    (Roster.average_score r = None ↔
     ∀ sc, sc ∈ scores db → sc_learner_id sc = Roster.id r →
           sc_score sc = None).
Proof.
  split; [|split].
  - unfold get_all_learners_with_reports.
    rewrite <-list_fmap_compose.
    change ((λ r, (Roster.id r, Roster.full_name r, Roster.grade r)) ∘ _)
      with (λ l, (l_id l, l_full_name l, l_grade l)).
    by rewrite order_by_Permutation.
  - unfold get_all_learners_with_reports.
    rewrite <-list_fmap_compose. apply (order_by_keys_sorted l_full_name).
  - intros r Hr.
    apply elem_of_get_all_learners_with_reports in Hr as (l & _ & ->).
    apply learner_average_None.
Qed.

Lemma roster_averages_witness :
  ∃ r, r ∈ get_all_learners_with_reports demo_db ∧
       Roster.id r = 4 ∧ Roster.average_score r = None.
Proof.
  set (r := {| Roster.id := 4; Roster.full_name := "Chege Mwangi";
               Roster.grade := "G2";
               Roster.average_score := learner_average demo_db 4 |}).
  assert (r ∈ get_all_learners_with_reports demo_db) as Hr.
  { apply elem_of_get_all_learners_with_reports.
    exists {| l_id := 4; l_full_name := "Chege Mwangi"; l_grade := "G2" |}.
    split; [|done]. simpl. do 3 right. left. }
  exists r. split; [done|]. split; [done|].
  apply (proj2 (proj2 (roster_averages demo_db)) r Hr).
  intros sc Hsc Hid. simpl in Hsc.
  repeat (apply elem_of_cons in Hsc as [->|Hsc]; [done|]).
  by apply not_elem_of_nil in Hsc.
Defined.

Lemma Qsum_bounds (xs : list Q) :
  Forall (λ x, (0 <= x)%Q ∧ (x <= 100)%Q) xs →
  (0 <= Qsum xs)%Q ∧ (Qsum xs <= 100 * inject_Z (Z.of_nat (length xs)))%Q.
Proof.
  induction 1 as [|x xs [Hx0 Hx1] _ [IH0 IH1]].
  - change (inject_Z (Z.of_nat (length (@nil Q)))) with 0%Q.
    change (Qsum []) with 0%Q. split; lra.
  - change (Qsum (x :: xs)) with (x + Qsum xs)%Q.
    cbn [length]. rewrite Nat2Z.inj_succ, <-Z.add_1_r, inject_Z_plus.
    change (inject_Z 1) with 1%Q. split; lra.
Qed.

(** X17: when the scores of the store lie between 0 and 100, so does every
    average of the roster. *)
Theorem roster_average_bounds db r a :
  (∀ sc x, sc ∈ scores db → sc_score sc = Some x →
           (0 <= x)%Q ∧ (x <= 100)%Q) →
  r ∈ get_all_learners_with_reports db →
  Roster.average_score r = Some a →
  (0 <= a)%Q ∧ (a <= 100)%Q.
Proof.
  intros Hrange Hr Ha.
  apply elem_of_get_all_learners_with_reports in Hr as (l & _ & ->).
  simpl in Ha. unfold learner_average, sql_avg in Ha.
  set (col := sc_score <$> filter _ (scores db)) in Ha.
  assert (Forall (λ x, (0 <= x)%Q ∧ (x <= 100)%Q) (non_null col)) as Hall.
  { apply Forall_forall. intros x Hx. apply elem_of_non_null in Hx.
    apply list_elem_of_fmap in Hx as (sc & Hx & Hsc).
    apply list_elem_of_filter in Hsc as [_ Hsc]. by apply (Hrange sc). }
  destruct (non_null col) as [|x xs] eqn:Hnn; [done|].
  injection Ha as <-.
  destruct (Qsum_bounds _ Hall) as [H0 H1].
  assert (0 < inject_Z (Z.of_nat (length (x :: xs))))%Q as Hpos
    by (unfold Qlt, inject_Z; simpl; lia).
  cbn [length] in H1, Hpos.
  change (Qsum (x :: xs)) with (x + Qsum xs)%Q in H0, H1.
  split.
  - apply Qle_shift_div_l; [done|]. lra.
  - apply Qle_shift_div_r; [done|]. lra.
Qed.

Lemma roster_average_bounds_witness :
  ∃ r a, r ∈ get_all_learners_with_reports demo_db ∧ Roster.id r = 2 ∧
         Roster.average_score r = Some a ∧ (a == 105 # 2)%Q ∧
         (0 <= a)%Q ∧ (a <= 100)%Q.
Proof.
  set (r := {| Roster.id := 2; Roster.full_name := "Amina Njeri";
               Roster.grade := "G1";
               Roster.average_score := learner_average demo_db 2 |}).
  assert (r ∈ get_all_learners_with_reports demo_db) as Hr.
  { apply elem_of_get_all_learners_with_reports.
    exists {| l_id := 2; l_full_name := "Amina Njeri"; l_grade := "G1" |}.
    split; [|done]. simpl. right. left. }
  exists r, ((65 + (40 + 0)) / inject_Z 2)%Q.
  split; [done|]. split; [done|]. split; [reflexivity|].
  split; [reflexivity|].
  apply (roster_average_bounds demo_db r); [|done|reflexivity].
  intros sc x Hsc Hx. simpl in Hsc.
  repeat (apply elem_of_cons in Hsc as [->|Hsc];
          [simpl in Hx; simplify_eq; split; by vm_compute|]).
  by apply not_elem_of_nil in Hsc.
Defined.

(** ** The reports of a grade *)

Lemma for_each_Ok {A B} (f : A → result B) (xs : list A) (ys : list B) :
  for_each f xs = Ok ys → Forall2 (λ x y, f x = Ok y) xs ys.
Proof.
  revert ys. induction xs as [|x xs IH]; intros ys; simpl.
  - intros [= <-]. constructor.
  - intros H. apply bind_Ok in H as (y & Hy & H).
    apply bind_Ok in H as (ys' & Hys & H). injection H as <-.
    constructor; [done|]. by apply IH.
Qed.

Lemma for_each_Raise {A B} (f : A → result B) (xs : list A) (ex : exn) :
  for_each f xs = Raise ex → ∃ x, x ∈ xs ∧ f x = Raise ex.
Proof.
  induction xs as [|x xs IH]; simpl; [done|].
  intros H. apply bind_Raise in H as [H|(y & _ & H)].
  - exists x. split; [left|done].
  - apply bind_Raise in H as [H|(ys & _ & H)]; [|done].
    destruct (IH H) as (x' & Hin & Hx'). exists x'. split; [by right|done].
Qed.

(** X18: the grade reports never hand a missing learner to the template: when
    the loop ends without an exception there is one report per learner row
    of the grade, each for the id of such a row; and the only exception is
    [TypeError]. *)
Theorem grade_reports_pdf_found db grade t e :
  (∀ reps, grade_reports_pdf db grade t e = Ok reps →
     length reps = length (filter (λ l, l_grade l = grade) (learners db)) ∧
     Forall (λ rep, ∃ r l, rep = Some r ∧ l ∈ learners db ∧
                           l_grade l = grade ∧ Report.id r = l_id l) reps) ∧
  (∀ ex, grade_reports_pdf db grade t e = Raise ex → ex = TypeError).
Proof.
  unfold grade_reports_pdf. split.
  - intros reps H. apply for_each_Ok in H. split.
    + rewrite <-(Forall2_length _ _ _ H).
      unfold get_all_learners_with_reports.
      rewrite <-(length_fmap (λ r, (Roster.id r, Roster.full_name r, Roster.grade r))).
      rewrite <-(order_by_length l_full_name
                   (filter (λ l, l_grade l = grade) (learners db))).
      rewrite <-filter_order_by.
      rewrite <-(length_fmap (λ l, (l_id l, l_full_name l, l_grade l))).
      f_equal.
      induction (order_by l_full_name (learners db)) as [|l ls IH]; [done|].
      rewrite fmap_cons, !filter_cons. simpl.
      destruct (decide (l_grade l = grade)); csimpl; by rewrite IH.
    + apply Forall_forall. intros rep Hrep.
      apply list_elem_of_lookup in Hrep as [i Hi].
      destruct (Forall2_lookup_r _ _ _ _ _ H Hi) as (x & Hx & Hcall).
      apply list_elem_of_lookup_2, list_elem_of_filter in Hx as [Hg Hx].
      apply elem_of_get_all_learners_with_reports in Hx as (l & Hl & ->).
      simpl in *. destruct rep as [r|].
      * exists r, l. repeat split; try done.
        by apply get_learner_by_id_Ok_Some in Hcall as (l' & Hl' & -> & _);
          apply learner_sql_Some in Hl' as [_ ->].
      * apply get_learner_by_id_Ok_None in Hcall.
        rewrite learner_sql_None in Hcall. by destruct (Hcall l Hl).
  - intros ex H. apply for_each_Raise in H as (x & _ & H).
    by apply get_learner_by_id_Raise in H as [-> _].
Qed.

Lemma grade_reports_pdf_found_witness :
  ∃ reps, grade_reports_pdf demo_db "G1" None None = Ok reps ∧
          length reps = 2%nat ∧ Forall is_Some reps.
Proof.
  destruct (grade_reports_pdf demo_db "G1" None None) as [reps|] eqn:H;
    [|vm_compute in H; discriminate].
  exists reps. split; [done|].
  destruct (proj1 (grade_reports_pdf_found demo_db "G1" None None) reps H)
    as [Hlen Hall].
  split; [exact Hlen|].
  eapply Forall_impl; [exact Hall|]. intros rep (r & _ & -> & _). by eexists.
Defined.

(** ** The number of marks *)

Lemma join_subject_length {B} (subs : list SubjectRow) (k : Z)
    (c1 c2 c3 : bool) (g : SubjectRow → B) :
  NoDup (s_id <$> subs) →
  length (subs ≫= λ s, if bool_decide (s_id s = k) && c1 && c2 && c3
                       then [g s] else []) =
  if bool_decide (k ∈ s_id <$> subs) && c1 && c2 && c3 then 1%nat else 0%nat.
Proof.
  induction subs as [|s subs IH]; intros Hnd; [done|].
  rewrite fmap_cons in Hnd. apply NoDup_cons in Hnd as [Hnotin Hnd].
  rewrite bind_cons, length_app, (IH Hnd), fmap_cons.
  destruct (decide (s_id s = k)) as [<-|Hne].
  - rewrite bool_decide_eq_true_2 by done.
    rewrite (bool_decide_eq_true_2 (s_id s ∈ _ :: _)) by left.
    rewrite (bool_decide_eq_false_2 _ Hnotin).
    by destruct c1, c2, c3.
  - rewrite (bool_decide_eq_false_2 _ Hne). simpl.
    destruct (decide (k ∈ s_id <$> subs)) as [Hin|Hin].
    + rewrite (bool_decide_eq_true_2 _ Hin).
      by rewrite (bool_decide_eq_true_2 (k ∈ _ :: _)) by (by right).
    + rewrite (bool_decide_eq_false_2 _ Hin).
      rewrite (bool_decide_eq_false_2 (k ∈ _ :: _)); [done|].
      intros [?|?]%elem_of_cons; done.
Qed.

(** X7: when no two subjects share an id, a returned report has one mark for
    each score row of the learner that passes the filters and whose subject
    is in the subjects table; the other score rows give no mark. *)
Theorem marks_count db lid t e g r :
  NoDup (s_id <$> subjects db) →
  get_learner_by_id db lid t e g = Ok (Some r) →
  length (Report.marks r) =
  length (filter (λ sc, sc_subject_id sc ∈ s_id <$> subjects db ∧
                        sc_learner_id sc = lid ∧
                        opt_filter t (sc_term sc) ∧
                        opt_filter e (sc_exam_type sc))
            (scores db)).
Proof.
  intros Hnd H.
  apply get_learner_by_id_Ok_Some in H as (_ & _ & _ & _ & _ & Hall & _).
  rewrite <-(Forall2_length _ _ _ Hall). unfold scores_sql.
  rewrite order_by_length.
  induction (scores db) as [|sc scs IH]; [done|].
  rewrite bind_cons, length_app, IH, filter_cons.
  rewrite (join_subject_length _ _ _ _ _ _ Hnd).
  destruct (decide (sc_subject_id sc ∈ s_id <$> subjects db)) as [H1|H1].
  - rewrite (bool_decide_eq_true_2 _ H1).
    destruct (decide (sc_learner_id sc = lid)) as [H2|H2].
    + rewrite (bool_decide_eq_true_2 _ H2).
      destruct (opt_filter t (sc_term sc)), (opt_filter e (sc_exam_type sc));
        simpl; (rewrite decide_True by done) || (rewrite decide_False by tauto);
        done.
    + rewrite (bool_decide_eq_false_2 _ H2). simpl.
      by rewrite decide_False by tauto.
  - rewrite (bool_decide_eq_false_2 _ H1). simpl.
    by rewrite decide_False by tauto.
Qed.

Lemma marks_count_witness :
  ∃ r, get_learner_by_id demo_db 2 None None None = Ok (Some r) ∧
       length (Report.marks r) = 2%nat.
Proof.
  destruct (get_learner_by_id demo_db 2 None None None) as [[r|]|] eqn:H;
    try (vm_compute in H; discriminate).
  exists r. split; [done|].
  rewrite (marks_count demo_db 2 None None None r); [reflexivity| |done].
  simpl. repeat (constructor; [rewrite ?elem_of_cons, elem_of_nil; lia|]).
  constructor.
Defined.

(** ** Narrowing a report *)

Lemma scores_sql_narrow db lid t e s :
  s ∈ scores_sql db lid t e → s ∈ scores_sql db lid None None.
Proof.
  rewrite !elem_of_scores_sql.
  intros (sc & sub & ? & ? & ? & ? & _ & _ & ?). exists sc, sub.
  by repeat split.
Qed.

(** X8: the term and exam type filters only remove marks.  When the call
    without filters returns a report, so does the call with filters, and
    each of its marks is, but for the class statistics, a mark of the
    unfiltered report. *)
Theorem filters_only_remove_marks db lid t e g r0 :
  get_learner_by_id db lid None None g = Ok (Some r0) →
  ∃ r, get_learner_by_id db lid t e g = Ok (Some r) ∧
       ∀ m, m ∈ Report.marks r →
         ∃ m0, m0 ∈ Report.marks r0 ∧
               Mark.subject m0 = Mark.subject m ∧
               Mark.exam_type m0 = Mark.exam_type m ∧
               Mark.score m0 = Mark.score m ∧
               Mark.remarks m0 = Mark.remarks m.
Proof.
  intros H0.
  pose proof (get_learner_by_id_Ok_Some _ _ _ _ _ _ H0)
    as (l & Hl & _ & _ & _ & Hall0 & _).
  destruct (get_learner_by_id_found db lid t e g) as [r Hr].
  - by exists l.
  - apply Forall_forall. intros s Hs. apply scores_sql_narrow in Hs.
    apply list_elem_of_lookup in Hs as [i Hi].
    destruct (Forall2_lookup_l _ _ _ _ _ Hall0 Hi) as (m0 & _ & Hm0).
    by apply mark_of_Ok in Hm0 as (_ & _ & _ & ? & _).
  - exists r. split; [done|]. intros m Hm.
    destruct (report_rows _ _ _ _ _ _ _ Hr Hm) as (s & Hs & Hmark).
    apply scores_sql_narrow in Hs.
    apply list_elem_of_lookup in Hs as [i Hi].
    destruct (Forall2_lookup_l _ _ _ _ _ Hall0 Hi) as (m0 & Hi0 & Hm0).
    exists m0. split; [by apply list_elem_of_lookup_2 in Hi0|].
    apply mark_of_Ok in Hmark as (-> & -> & -> & _ & Hrem & _).
    apply mark_of_Ok in Hm0 as (-> & -> & -> & _ & Hrem0 & _).
    repeat split. congruence.
Qed.

Lemma filters_only_remove_marks_witness :
  ∃ r0 r,
    get_learner_by_id demo_db 2 None None None = Ok (Some r0) ∧
    get_learner_by_id demo_db 2 (Some "Term 2"%string) None None
      = Ok (Some r) ∧
    length (Report.marks r0) = 2%nat ∧ length (Report.marks r) = 1%nat.
Proof.
  destruct (get_learner_by_id demo_db 2 None None None) as [[r0|]|] eqn:H0;
    try (vm_compute in H0; discriminate).
  destruct (filters_only_remove_marks demo_db 2 (Some "Term 2"%string)
              None None r0 H0) as (r & Hr & _).
  exists r0, r. split; [done|]. split; [done|]. split.
  - vm_compute in H0. by injection H0 as <-.
  - vm_compute in Hr. by injection Hr as <-.
Defined.
